(** * youtube-ass: Youtube XML annotations to ASS subtitles

    A shallow embedding of [youtube-ass.py] (class [YoutubeAss]) and the
    properties of its position mapper, its XML parse step and its ASS
    serialisers.

    Conventions of the embedding.
    - The interpreter is Python 3: a [dict] keeps insertion order, ordering
      [None] against a string raises [TypeError], [str.encode] yields
      [bytes], and [str.format] renders [bytes] as a bytes literal.
    - A Python [str] is a [string] holding the UTF-8 code units of the text;
      byte-wise lexicographic order on UTF-8 is code-point order, which is
      the order Python compares strings by.  [float] reads the characters
      back and takes the decimal digits and the white space of every
      script, by the Unicode 14.0.0 tables of CPython 3.11.
    - A Python [float] is an IEEE-754 binary64 number: [spec_float] at
      precision 53 and maximal exponent 1024, rounded to nearest even.
    - The input is the element tree that [xml.etree.ElementTree.fromstring]
      returns; a document that [fromstring] rejects never reaches the code
      modelled here. *)

From Stdlib Require Import ZArith QArith List String Ascii Bool Lia Lqa.
From Stdlib Require Import DecimalString.
From Stdlib Require Import Floats.SpecFloat.
Import ListNotations.

Local Open Scope string_scope.
Local Open Scope Z_scope.

(** ** Exceptions *)

Inductive exn : Type :=
| AttributeError
| IndexError
| KeyError
| TypeError
| ValueError.

Inductive result (A : Type) : Type :=
| Ok (a : A)
| Raise (e : exn).
Arguments Ok {A} a.
Arguments Raise {A} e.

Definition bind {A B : Type} (c : result A) (k : A -> result B) : result B :=
  match c with
  | Ok a => k a
  | Raise e => Raise e
  end.

Notation "x <- c ;; k" := (bind c (fun x => k))
  (at level 61, c at next level, right associativity).
Notation "' p <- c ;; k" := (bind c (fun x => let 'p := x in k))
  (at level 61, p pattern, c at next level, right associativity).

(** ** Numbers

    [_get_pos] is written against Python's numeric protocol: it subtracts
    its arguments from the integer canvas size and orders them against the
    integer midpoint.  The interface below is exactly what it uses. *)

Class Number (A : Type) := {
  (** [n - a] for a Python int [n] *)
  rsub_int : Z -> A -> A;
  (** [a - b] *)
  sub : A -> A -> A;
  (** [a < n] and [a > n] for a Python int [n] *)
  lt_int : A -> Z -> bool;
  gt_int : A -> Z -> bool
}.

(** Python ints. *)
#[export] Instance Number_Z : Number Z := {
  rsub_int n a := n - a;
  sub a b := a - b;
  lt_int a n := a <? n;
  gt_int a n := a >? n
}.

(** Exact rationals ([fractions.Fraction]). *)
Definition Qlt_int (a : Q) (n : Z) : bool :=
  match (a ?= inject_Z n)%Q with Lt => true | _ => false end.

Definition Qgt_int (a : Q) (n : Z) : bool :=
  match (a ?= inject_Z n)%Q with Gt => true | _ => false end.

#[export] Instance Number_Q : Number Q := {
  rsub_int n a := (inject_Z n - a)%Q;
  sub a b := (a - b)%Q;
  lt_int := Qlt_int;
  gt_int := Qgt_int
}.

(** Python floats. *)
Definition float : Type := spec_float.

Definition prec : Z := 53.
Definition emax : Z := 1024.

Definition float_sub (a b : float) : float := SFsub prec emax a b.

(** [float(n)] for an int [n], correctly rounded.  (CPython raises
    [OverflowError] where this yields an infinity; the canvas sizes are far
    below that.) *)
Definition float_of_int (n : Z) : float := binary_normalize prec emax n 0 false.

(** Mixed comparison of a float with an int is exact in Python: the float
    is not rounded, the two are compared as real numbers. *)
Definition float_compare_int (a : float) (n : Z) : option comparison :=
  match a with
  | S754_nan => None
  | S754_infinity s => Some (if s then Lt else Gt)
  | S754_zero _ => Some (0 ?= n)
  | S754_finite s m e =>
      let v := if s then Zneg m else Zpos m in
      Some (if 0 <=? e then (Z.shiftl v e ?= n)
            else (v ?= Z.shiftl n (- e)))
  end.

Definition float_lt_int (a : float) (n : Z) : bool :=
  match float_compare_int a n with Some Lt => true | _ => false end.

Definition float_gt_int (a : float) (n : Z) : bool :=
  match float_compare_int a n with Some Gt => true | _ => false end.

#[export] Instance Number_float : Number float := {
  rsub_int n a := float_sub (float_of_int n) a;
  sub := float_sub;
  lt_int := float_lt_int;
  gt_int := float_gt_int
}.

(** ** [str(int)] *)

Definition str_int (n : Z) : string := NilZero.string_of_int (Z.to_int n).

(** ** [repr(float)]

    The shortest decimal string that reads back as the same float and,
    among those, the nearest to it; laid out in fixed notation when the
    decimal point falls within the digits or at most sixteen places to
    their right or three to their left, in exponent notation otherwise. *)

(** [X * 2^E] as a fraction of two positive integers *)
Definition frac2 (X E : Z) : Z * Z :=
  if 0 <=? E then (Z.shiftl X E, 1) else (X, Z.shiftl 1 (- E)).

(** [d * 10^p] likewise *)
Definition frac10 (d p : Z) : Z * Z :=
  if 0 <=? p then (d * 10 ^ p, 1) else (d, 10 ^ (- p)).

(** compares [X * 2^E] with [d * 10^p] *)
Definition cmp_scaled (X E d p : Z) : comparison :=
  let '(l, ld) := frac2 X E in
  let '(r, rd) := frac10 d p in
  (l * rd ?= r * ld).

(** floor of [X * 2^E / 10^p] *)
Definition floor_scaled (X E p : Z) : Z :=
  let '(l, ld) := frac2 X E in
  let '(r, rd) := frac10 1 p in
  (l * rd) / (ld * r).

(** The least [k] with [X * 2^E < 10^k], searched from [k]: first down
    while [X * 2^E < 10^(k-1)], then up while [10^k <= X * 2^E]. *)
Fixpoint decpt_down (fuel : nat) (X E k : Z) : Z :=
  match fuel with
  | O => k
  | S fuel' =>
      match cmp_scaled X E 1 (k - 1) with
      | Lt => decpt_down fuel' X E (k - 1)
      | _ => k
      end
  end.

Fixpoint decpt_up (fuel : nat) (X E k : Z) : Z :=
  match fuel with
  | O => k
  | S fuel' =>
      match cmp_scaled X E 1 k with
      | Lt => k
      | _ => decpt_up fuel' X E (k + 1)
      end
  end.

Section Shortest.
(** The float is [m * 2^e].  In units of [2^(e-2)] it is [4m], and the
    reals that round to it lie between [lo] and [hi]: half a unit in the
    last place on either side, a quarter below when the float is a power
    of two above the subnormals.  The bounds themselves round to it when
    [m] is even. *)
Variables (m : positive) (e : Z).

Definition E2 : Z := e - 2.
Definition X4 : Z := 4 * Zpos m.
Definition lo : Z :=
  if (Zpos m =? 2 ^ (prec - 1)) && (3 - emax - prec <? e) then X4 - 1
  else X4 - 2.
Definition hi : Z := X4 + 2.

Definition rounds_back (d p : Z) : bool :=
  match cmp_scaled lo E2 d p, cmp_scaled hi E2 d p with
  | Lt, Gt => true
  | Eq, _ | _, Eq => Z.even (Zpos m)
  | _, _ => false
  end.

(** the [n]-digit decimal [d * 10^(k-n)] that rounds back to the float
    and is nearest to it, if there is one *)
Definition candidate (k n : Z) : option Z :=
  let p := k - n in
  let d := floor_scaled X4 E2 p in
  match rounds_back d p, rounds_back (d + 1) p with
  | true, true =>
      match cmp_scaled (2 * X4) E2 (2 * d + 1) p with
      | Gt => Some (d + 1)
      | _ => Some d
      end
  | true, false => Some d
  | false, true => Some (d + 1)
  | false, false => None
  end.

Fixpoint shortest_from (fuel : nat) (k n : Z) : Z * Z :=
  match fuel with
  | O => (floor_scaled X4 E2 (k - n), n)
  | S fuel' =>
      match candidate k n with
      | Some d => (d, n)
      | None => shortest_from fuel' k (n + 1)
      end
  end.

Definition decpt0 : Z :=
  let k0 := (Z.log2 X4 + E2) * 3 / 10 in
  decpt_up 700 X4 E2 (decpt_down 700 X4 E2 k0).

(** the digits as an integer, and how many were asked for; seventeen
    always suffice *)
Definition shortest : Z * Z := shortest_from 17 decpt0 1.
End Shortest.

Fixpoint strip_zeros (s : list ascii) : list ascii :=
  match s with
  | "0"%char :: r => strip_zeros r
  | _ => s
  end.

Definition rstrip_zeros (s : string) : string :=
  string_of_list_ascii (rev (strip_zeros (rev (list_ascii_of_string s)))).

Fixpoint zeros (n : nat) : string :=
  match n with
  | O => ""
  | S n' => String "0" (zeros n')
  end.

(** the exponent of the exponent notation: a sign and at least two digits *)
Definition exp_str (x : Z) : string :=
  (if x <? 0 then "-" else "+") ++
  (if Z.abs x <? 10 then "0" else "") ++ str_int (Z.abs x).

Definition repr_finite (m : positive) (e : Z) : string :=
  let '(d, n) := shortest m e in
  let all := str_int d in
  let decpt := decpt0 m e + (Z.of_nat (String.length all) - n) in
  let digits := rstrip_zeros all in
  let len := String.length digits in
  if (decpt <=? -4) || (16 <? decpt) then
    substring 0 1 digits ++
    (if (1 <? len)%nat then "." ++ substring 1 (len - 1) digits else "") ++
    "e" ++ exp_str (decpt - 1)
  else if decpt <=? 0 then
    "0." ++ zeros (Z.to_nat (- decpt)) ++ digits
  else if Z.of_nat len <=? decpt then
    digits ++ zeros (Z.to_nat decpt - len) ++ ".0"
  else
    substring 0 (Z.to_nat decpt) digits ++ "." ++
    substring (Z.to_nat decpt) (len - Z.to_nat decpt) digits.

Definition float_repr (f : float) : string :=
  match f with
  | S754_nan => "nan"
  | S754_infinity s => if s then "-inf" else "inf"
  | S754_zero s => if s then "-0.0" else "0.0"
  | S754_finite s m e => (if s then "-" else "") ++ repr_finite m e
  end.

(** ** [float(str)]

    [float] first rewrites its argument to ASCII: a character of the
    Unicode class of white space becomes a space and a decimal digit of any
    script becomes the ASCII digit of its value; the first character that
    is neither ends the text with a question mark.  The result is read by
    the grammar of ASCII input: surrounding whitespace, a sign, then [inf],
    [infinity] or [nan] in any case, or decimal digits with an optional
    point and an optional exponent; single underscores may separate
    digits.  [None] stands for [ValueError]. *)

(** *** The characters of a [str]

    A [str] is held as its UTF-8 code units; [code_points] reads the
    characters back.  It yields [None] on bytes that are the UTF-8 form of
    no text (a stray or missing continuation byte, an overlong form, a
    surrogate, a value beyond U+10FFFF). *)

Definition byte (c : ascii) : Z := Z.of_nat (nat_of_ascii c).

(** [need] continuation bytes are still due for the character whose
    leading bits are [acc]; [low] is the least value its length may
    encode. *)
Fixpoint code_points_from (need : nat) (acc low : Z) (s : list ascii)
  : option (list Z) :=
  match s with
  | [] => match need with O => Some [] | S _ => None end
  | c :: r =>
      let b := byte c in
      match need with
      | O =>
          if b <? 0x80 then option_map (cons b) (code_points_from 0 0 0 r)
          else if (0xC0 <=? b) && (b <? 0xE0) then
            code_points_from 1 (b - 0xC0) 0x80 r
          else if (0xE0 <=? b) && (b <? 0xF0) then
            code_points_from 2 (b - 0xE0) 0x800 r
          else if (0xF0 <=? b) && (b <? 0xF8) then
            code_points_from 3 (b - 0xF0) 0x10000 r
          else None
      | S need' =>
          if (0x80 <=? b) && (b <? 0xC0) then
            let acc' := 64 * acc + (b - 0x80) in
            match need' with
            | O =>
                if (low <=? acc') && (acc' <=? 0x10FFFF) &&
                   negb ((0xD800 <=? acc') && (acc' <=? 0xDFFF))
                then option_map (cons acc') (code_points_from 0 0 0 r)
                else None
            | S _ => code_points_from need' acc' low r
            end
          else None
      end
  end.

Definition code_points (s : string) : option (list Z) :=
  code_points_from 0 0 0 (list_ascii_of_string s).

(** *** The Unicode tables of the interpreter (Unicode 14.0.0) *)

(** white space beyond ASCII: the characters of bidirectional type WS, B
    or S and those of category Zs *)
Definition is_unicode_space (ch : Z) : bool :=
  existsb (Z.eqb ch) [0x85; 0xA0; 0x1680; 0x2028; 0x2029; 0x202F; 0x205F; 0x3000]
  || ((0x2000 <=? ch) && (ch <=? 0x200A)).

(** The decimal digits (category Nd) come in runs of ten, zero to nine;
    these are the zeros of the runs beyond ASCII. *)
Definition decimal_zeros : list Z :=
  [0x660; 0x6F0; 0x7C0; 0x966; 0x9E6; 0xA66;
   0xAE6; 0xB66; 0xBE6; 0xC66; 0xCE6; 0xD66;
   0xDE6; 0xE50; 0xED0; 0xF20; 0x1040; 0x1090;
   0x17E0; 0x1810; 0x1946; 0x19D0; 0x1A80; 0x1A90;
   0x1B50; 0x1BB0; 0x1C40; 0x1C50; 0xA620; 0xA8D0;
   0xA900; 0xA9D0; 0xA9F0; 0xAA50; 0xABF0; 0xFF10;
   0x104A0; 0x10D30; 0x11066; 0x110F0; 0x11136; 0x111D0;
   0x112F0; 0x11450; 0x114D0; 0x11650; 0x116C0; 0x11730;
   0x118E0; 0x11950; 0x11C50; 0x11D50; 0x11DA0; 0x16A60;
   0x16AC0; 0x16B50; 0x1D7CE; 0x1D7D8; 0x1D7E2; 0x1D7EC;
   0x1D7F6; 0x1E140; 0x1E2F0; 0x1E950; 0x1FBF0].

Definition to_decimal (ch : Z) : option Z :=
  match List.find (fun z => (z <=? ch) && (ch <? z + 10)) decimal_zeros with
  | Some z => Some (ch - z)
  | None => None
  end.

Definition ascii_of_Z (n : Z) : ascii := ascii_of_nat (Z.to_nat n).

(** the rewriting of a text that is not all ASCII *)
Fixpoint transform_decimal_and_space (s : list Z) : list ascii :=
  match s with
  | [] => []
  | ch :: r =>
      if ch <? 127 then ascii_of_Z ch :: transform_decimal_and_space r
      else if is_unicode_space ch then
        " "%char :: transform_decimal_and_space r
      else
        match to_decimal ch with
        | Some d => ascii_of_Z (48 + d) :: transform_decimal_and_space r
        | None => ["?"%char]
        end
  end.

(** an ASCII text is taken as it is *)
Definition to_ascii (s : list Z) : list ascii :=
  if forallb (fun ch => ch <? 128) s then map ascii_of_Z s
  else transform_decimal_and_space s.

(** *** The grammar on ASCII *)

Definition is_space (c : ascii) : bool :=
  let n := Z.of_nat (nat_of_ascii c) in
  ((9 <=? n) && (n <=? 13)) || (n =? 32).

Definition is_digit (c : ascii) : bool :=
  let n := Z.of_nat (nat_of_ascii c) in
  (48 <=? n) && (n <=? 57).

Fixpoint lstrip (s : list ascii) : list ascii :=
  match s with
  | c :: r => if is_space c then lstrip r else s
  | [] => []
  end.

Definition strip (s : list ascii) : list ascii :=
  rev (lstrip (rev (lstrip s))).

(** an underscore must follow a digit and precede one; it is dropped *)
Fixpoint drop_underscores (prev : ascii) (s : list ascii)
  : option (list ascii) :=
  match s with
  | [] => if Ascii.eqb prev "_" then None else Some []
  | c :: r =>
      if Ascii.eqb c "_" then
        if is_digit prev then drop_underscores c r else None
      else if Ascii.eqb prev "_" && negb (is_digit c) then None
      else option_map (cons c) (drop_underscores c r)
  end.

Fixpoint span_digits (s : list ascii) : list ascii * list ascii :=
  match s with
  | c :: r =>
      if is_digit c then let '(d, t) := span_digits r in (c :: d, t)
      else ([], s)
  | [] => ([], [])
  end.

Definition digits_value (d : list ascii) : Z :=
  fold_left (fun acc c => 10 * acc + (Z.of_nat (nat_of_ascii c) - 48)) d 0.

Definition lower (c : ascii) : ascii :=
  let n := nat_of_ascii c in
  if ((65 <=? n) && (n <=? 90))%nat then ascii_of_nat (n + 32) else c.

Definition take_sign (s : list ascii) : bool * list ascii :=
  match s with
  | "-"%char :: r => (true, r)
  | "+"%char :: r => (false, r)
  | _ => (false, s)
  end.

(** the decimal [M * 10^E10], rounded to the nearest float, ties to even *)
Definition round_decimal (sign : bool) (M E10 : Z) : float :=
  match M with
  | Zpos _ =>
      if 0 <=? E10 then
        binary_normalize prec emax
          (if sign then - (M * 10 ^ E10) else M * 10 ^ E10) 0 sign
      else
        let '(q, e, l) := SFdiv_core_binary prec emax M 0 (10 ^ (- E10)) 0 in
        binary_round_aux prec emax sign q e l
  | _ => S754_zero sign
  end.

Definition parse_exponent (s : list ascii) : option Z :=
  match s with
  | [] => Some 0
  | c :: r =>
      if Ascii.eqb (lower c) "e" then
        let '(neg, r') := take_sign r in
        match span_digits r' with
        | ((_ :: _) as d, []) =>
            Some (if neg then - digits_value d else digits_value d)
        | _ => None
        end
      else None
  end.

Definition float_of_ascii (s : list ascii) : option float :=
  match drop_underscores " " (strip s) with
  | None => None
  | Some t =>
      let '(sign, u) := take_sign t in
      let word := string_of_list_ascii (map lower u) in
      if String.eqb word "inf" || String.eqb word "infinity" then
        Some (S754_infinity sign)
      else if String.eqb word "nan" then Some S754_nan
      else
        let '(ip, r1) := span_digits u in
        let '(fp, r2) := match r1 with
                         | "."%char :: r => span_digits r
                         | _ => ([], r1)
                         end in
        match (ip ++ fp)%list with
        | [] => None
        | ds =>
            match parse_exponent r2 with
            | Some x =>
                Some (round_decimal sign (digits_value ds)
                        (x - Z.of_nat (List.length fp)))
            | None => None
            end
        end
  end.

Definition float_of_string (s : string) : option float :=
  match code_points s with
  | Some chars => float_of_ascii (to_ascii chars)
  | None => None
  end.

(** ** Values *)

Definition LF : ascii := "010"%char.
Definition nl : string := String LF "".

Definition squote : ascii := "'"%char.
Definition dquote : ascii := "034"%char.
Definition backslash : ascii := "\"%char.

Definition hex_digit (n : nat) : ascii :=
  nth n (list_ascii_of_string "0123456789abcdef") "0"%char.

(** one byte of a bytes literal *)
Definition escape_byte (quote c : ascii) : string :=
  let n := nat_of_ascii c in
  if Ascii.eqb c quote || Ascii.eqb c backslash then
    String backslash (String c "")
  else if (n =? 9)%nat then "\t"
  else if (n =? 10)%nat then "\n"
  else if (n =? 13)%nat then "\r"
  else if ((n <? 32) || (127 <=? n))%nat then
    "\x" ++ String (hex_digit (n / 16)) (String (hex_digit (n mod 16)) "")
  else String c "".

Fixpoint escape_bytes (quote : ascii) (b : string) : string :=
  match b with
  | EmptyString => ""
  | String c r => escape_byte quote c ++ escape_bytes quote r
  end.

Fixpoint contains (c : ascii) (s : string) : bool :=
  match s with
  | EmptyString => false
  | String c' r => Ascii.eqb c c' || contains c r
  end.

(** [repr(b)] for [bytes]: single quotes, unless the bytes hold a single
    quote and no double quote *)
Definition bytes_repr (b : string) : string :=
  let quote :=
    if contains squote b && negb (contains dquote b) then dquote
    else squote in
  "b" ++ String quote (escape_bytes quote b ++ String quote "").

(** The values that the two collections hold. *)
Inductive value : Type :=
| VNone
| VStr (s : string)
| VBytes (b : string)
| VInt (n : Z)
| VFloat (f : float).

(** the result of [Element.get]: a string or [None] *)
Definition of_attr (o : option string) : value :=
  match o with
  | Some s => VStr s
  | None => VNone
  end.

(** [format(v, "")], the rendering of a replacement field without a
    format spec; it is [str(v)] for all five kinds *)
Definition str (v : value) : string :=
  match v with
  | VNone => "None"
  | VStr s => s
  | VBytes b => bytes_repr b
  | VInt n => str_int n
  | VFloat f => float_repr f
  end.

(** ** Dictionaries

    A [dict] in insertion order.  Assigning to a key that is present keeps
    its place and replaces its value. *)

Section Dict.
Context {K V : Type}.
Variable eqb : K -> K -> bool.

Definition dict : Type := list (K * V).

Fixpoint dict_get (d : dict) (k : K) : option V :=
  match d with
  | [] => None
  | (k', v) :: r => if eqb k k' then Some v else dict_get r k
  end.

(** [d[k] = v] *)
Fixpoint dict_set (d : dict) (k : K) (v : V) : dict :=
  match d with
  | [] => [(k, v)]
  | (k', v') :: r =>
      if eqb k k' then (k', v) :: r else (k', v') :: dict_set r k v
  end.

(** [d.update(other)] *)
Definition dict_update (d other : dict) : dict :=
  fold_left (fun acc kv => dict_set acc (fst kv) (snd kv)) other d.

Definition keys (d : dict) : list K := map fst d.
End Dict.
Arguments dict : clear implicits.

(** The inner dictionaries are keyed by field names. *)
Definition fields : Type := dict string value.

(** The outer ones are keyed by [each.get('id')], a string or [None]. *)
Definition key : Type := option string.

Definition key_eqb (a b : key) : bool :=
  match a, b with
  | Some x, Some y => String.eqb x y
  | None, None => true
  | _, _ => false
  end.

(** ** [str.format] with named fields *)

Inductive piece : Type :=
| Text (s : string)
| Field (name : string).

(** [KeyError] at the first field the keywords do not supply *)
Fixpoint format (template : list piece) (kwargs : fields) : result string :=
  match template with
  | [] => Ok ""
  | Text s :: t => rest <- format t kwargs ;; Ok (s ++ rest)
  | Field name :: t =>
      match dict_get String.eqb kwargs name with
      | Some v => rest <- format t kwargs ;; Ok (str v ++ rest)
      | None => Raise KeyError
      end
  end.

(** the keywords of a call [f(name=v, **data)]; a [data] that has [name]
    itself makes the call a [TypeError] *)
Definition keywords (name : string) (v : value) (data : fields)
  : result fields :=
  match dict_get String.eqb data name with
  | Some _ => Raise TypeError
  | None => Ok ((name, v) :: data)
  end.

(** ** Element trees *)

#[warnings="-register-all"]
Inductive Element : Type :=
  mkElement (tag : string) (attrib : list (string * string))
            (text : option string) (children : list Element).

Definition tag (e : Element) : string :=
  let 'mkElement t _ _ _ := e in t.
Definition attrib (e : Element) : list (string * string) :=
  let 'mkElement _ a _ _ := e in a.
Definition text (e : Element) : option string :=
  let 'mkElement _ _ t _ := e in t.
Definition children (e : Element) : list Element :=
  let 'mkElement _ _ _ c := e in c.

(** [e.get(name)] *)
Definition get (e : Element) (name : string) : option string :=
  dict_get String.eqb (attrib e) name.

(** [e.find(t)] for a plain tag [t]: the first child with that tag *)
Definition find (e : Element) (t : string) : option Element :=
  List.find (fun c => String.eqb (tag c) t) (children e).

(** [e.findall(t)]: the children with that tag, in document order *)
Definition findall (e : Element) (t : string) : list Element :=
  filter (fun c => String.eqb (tag c) t) (children e).

(** calling a method on what [find] returned: [None] has none *)
Definition method (o : option Element) : result Element :=
  match o with
  | Some e => Ok e
  | None => Raise AttributeError
  end.

(** ** The position mapper *)

(** The third margin is the argument's own kind of number in the top and
    bottom bands and the int literal [0] in the middle band. *)
Inductive margin (A : Type) : Type :=
| Num (a : A)
| Lit (n : Z).
Arguments Num {A} a.
Arguments Lit {A} n.

Section GetPos.
Context {A : Type} `{Number A}.
(** [self.width] and [self.height] *)
Variables self_width self_height : Z.

Definition _get_pos (x y w h : A) : Z * (A * A * margin A) :=
  let margins := (x, sub (rsub_int self_width x) w) in
  if lt_int y (self_height / 2) then
    let margins := (margins, Num y) in
    if lt_int x (self_width / 2) then (7, margins)
    else if gt_int x (self_width / 2) then (9, margins)
    else (8, margins)
  else if gt_int y (self_height / 2) then
    let margins := (margins, Num (sub (rsub_int self_height y) h)) in
    if lt_int x (self_width / 2) then (1, margins)
    else if gt_int x (self_width / 2) then (3, margins)
    else (2, margins)
  else
    let margins := (margins, Lit 0) in
    if lt_int x (self_width / 2) then (4, margins)
    else if gt_int x (self_width / 2) then (6, margins)
    else (5, margins).
End GetPos.

(** ** The converter object *)

Record YoutubeAss : Type := {
  width : Z;
  height : Z;
  xml : Element;
  events : dict key fields;
  styles : dict key fields;
  Script_Info : string;
  V4_Styles : string;
  Events : string
}.

Definition set_events (self : YoutubeAss) (d : dict key fields) : YoutubeAss :=
  {| width := width self; height := height self; xml := xml self;
     events := d; styles := styles self;
     Script_Info := Script_Info self; V4_Styles := V4_Styles self;
     Events := Events self |}.

Definition set_styles (self : YoutubeAss) (d : dict key fields) : YoutubeAss :=
  {| width := width self; height := height self; xml := xml self;
     events := events self; styles := d;
     Script_Info := Script_Info self; V4_Styles := V4_Styles self;
     Events := Events self |}.

Definition set_V4_Styles (self : YoutubeAss) (s : string) : YoutubeAss :=
  {| width := width self; height := height self; xml := xml self;
     events := events self; styles := styles self;
     Script_Info := Script_Info self; V4_Styles := s;
     Events := Events self |}.

Definition set_Events (self : YoutubeAss) (s : string) : YoutubeAss :=
  {| width := width self; height := height self; xml := xml self;
     events := events self; styles := styles self;
     Script_Info := Script_Info self; V4_Styles := V4_Styles self;
     Events := s |}.

(** *** [_parse_xml] *)

(** [s + v] for a string [s] and a string or [None] *)
Definition concat (s : string) (v : option string) : result string :=
  match v with
  | Some t => Ok (s ++ t)
  | None => Raise TypeError
  end.

(** [e.text.encode('utf-8')]: [None] has no [encode] *)
Definition encode (t : option string) : result string :=
  match t with
  | Some s => Ok s
  | None => Raise AttributeError
  end.

(** [l[n]] *)
Definition index (l : list Element) (n : nat) : result Element :=
  match nth_error l n with
  | Some e => Ok e
  | None => Raise IndexError
  end.

(** [a < b] on strings; [None] is not ordered *)
Definition py_lt (a b : option string) : result bool :=
  match a, b with
  | Some x, Some y => Ok (String.ltb x y)
  | _, _ => Raise TypeError
  end.

(** [min(a, b)] keeps [a] unless [b < a]; [max(a, b)] keeps [a] unless
    [b > a] *)
Definition py_min (a b : option string) : result (option string) :=
  lt <- py_lt b a ;; Ok (if lt then b else a).

Definition py_max (a b : option string) : result (option string) :=
  gt <- py_lt a b ;; Ok (if gt then b else a).

(** [a == s] for a string or [None] [a] *)
Definition is_str (a : option string) (s : string) : bool :=
  match a with
  | Some x => String.eqb x s
  | None => false
  end.

(** [float(v)] for a string or [None] *)
Definition py_float (v : option string) : result float :=
  match v with
  | None => Raise TypeError
  | Some s =>
      match float_of_string s with
      | Some f => Ok f
      | None => Raise ValueError
      end
  end.

Definition margin_value (m : margin float) : value :=
  match m with
  | Num a => VFloat a
  | Lit n => VInt n
  end.

(** How one round of the loop ends: with a diagnostic and [continue], or
    with the two [update] calls. *)
Inductive step : Type :=
| Continue (diagnostic : string)
| Update (ant_id : key) (event style : fields).

Definition loop_body (self : YoutubeAss) (each : Element) : result step :=
  let ant_id := get each "id" in
  if negb (is_str (get each "type") "text") then
    msg <- concat "Skipping non-text annotation with id: " ant_id ;;
    Ok (Continue msg)
  else
  match find each "TEXT" with
  | None =>
    msg <- concat "Skipping empty annotation with id: " ant_id ;;
    Ok (Continue msg)
  | Some TEXT =>
    text <- encode (text TEXT) ;;
    segment <- method (find each "segment") ;;
    moving_region <- method (find segment "movingRegion") ;;
    let box := findall moving_region "rectRegion" in
    let box :=
      match box with
      | [] => findall moving_region "anchoredRegion"
      | _ => box
      end in
    match box with
    | [] => Ok (Continue "No known regions inside <movingRegion>? Skipping...")
    | _ =>
      box0 <- index box 0 ;;
      box1 <- index box 1 ;;
      t1 <- py_min (get box0 "t") (get box1 "t") ;;
      t2 <- py_max (get box0 "t") (get box1 "t") ;;
      if is_str t1 "never" || is_str t2 "never" then
        Ok (Continue "Found annotation that shouldn't be shown, skipping...")
      else
        x <- py_float (get box0 "x") ;;
        y <- py_float (get box0 "y") ;;
        w <- py_float (get box0 "w") ;;
        h <- py_float (get box0 "h") ;;
        let '(align, (MarginL, MarginR, MarginV)) :=
          _get_pos (width self) (height self) x y w h in
        let '(fgColor, bgColor) :=
          match find each "appearance" with
          | Some appearance =>
              (of_attr (get appearance "fgColor"),
               of_attr (get appearance "bgColor"))
          | None => (VStr "1", VStr "0")
          end in
        Ok (Update ant_id
              [("Text", VBytes text); ("Start", of_attr t1);
               ("End", of_attr t2)]
              [("PrimaryColour", fgColor); ("BackColour", bgColor);
               ("Alignment", VInt align); ("MarginL", VFloat MarginL);
               ("MarginR", VFloat MarginR);
               ("MarginV", margin_value MarginV)])
    end
  end.

(** The loop over the annotations, with what it prints.  An exception
    leaves the loop at once; what was printed before stays printed. *)
Fixpoint parse_loop (annotations : list Element) (self : YoutubeAss)
  (stdout : list string) : result YoutubeAss * list string :=
  match annotations with
  | [] => (Ok self, stdout)
  | each :: rest =>
      match loop_body self each with
      | Raise e => (Raise e, stdout)
      | Ok (Continue msg) => parse_loop rest self (stdout ++ [msg])%list
      | Ok (Update ant_id event style) =>
          let self := set_events self
            (dict_update key_eqb (events self) [(ant_id, event)]) in
          let self := set_styles self
            (dict_update key_eqb (styles self) [(ant_id, style)]) in
          parse_loop rest self stdout
      end
  end.

Definition _parse_xml (self : YoutubeAss) : result YoutubeAss * list string :=
  match find (xml self) "annotations" with
  | None => (Raise AttributeError, [])
  | Some annotations =>
      parse_loop (findall annotations "annotation") self []
  end.

(** *** [_write_styles] and [_write_events] *)

(** A loop over [d.items()] whose body updates the entry's own dictionary
    in place and appends to a section. *)
Fixpoint for_items (body : key -> fields -> string -> result (fields * string))
  (items : dict key fields) (section : string)
  : result (dict key fields * string) :=
  match items with
  | [] => Ok ([], section)
  | (name, data) :: rest =>
      '(data', section') <- body name data section ;;
      '(rest', section'') <- for_items body rest section' ;;
      Ok ((name, data') :: rest', section'')
  end.

Definition style_misc_data : fields :=
  [("Fontname", VStr "Arial"); ("Fontsize", VStr "4.5"); ("Bold", VStr "0");
   ("Italic", VStr "0"); ("BorderStyle", VStr "1"); ("Outline", VStr "0.1");
   ("Shadow", VStr "0.2"); ("Encoding", VStr "0")].

Definition style_template : list piece :=
  [Text "Style: "; Field "Name"; Text ","; Field "Fontname"; Text ",";
   Field "Fontsize"; Text ","; Field "PrimaryColour"; Text ",";
   Field "PrimaryColour"; Text ","; Field "PrimaryColour"; Text ",";
   Field "BackColour"; Text ","; Field "Bold"; Text ",";
   Field "Italic"; Text ","; Field "BorderStyle"; Text ",";
   Field "Outline"; Text ","; Field "Shadow"; Text ",";
   Field "Alignment"; Text ",";
   Field "MarginL"; Text ","; Field "MarginR"; Text ",";
   Field "MarginV"; Text ",0,"; Field "Encoding";
   Text nl].

Definition write_style (name : key) (data : fields) (section : string)
  : result (fields * string) :=
  let data := dict_update String.eqb data style_misc_data in
  kwargs <- keywords "Name" (of_attr name) data ;;
  line <- format style_template kwargs ;;
  Ok (data, section ++ line).

Definition _write_styles (self : YoutubeAss) : result YoutubeAss :=
  '(styles', section) <- for_items write_style (styles self) (V4_Styles self) ;;
  Ok (set_V4_Styles (set_styles self styles') section).

Definition event_misc_data : fields :=
  [("Marked", VStr "Marked=0"); ("Name", VStr "Speaker");
   ("MarginL", VStr "0"); ("MarginR", VStr "0"); ("MarginV", VStr "0");
   ("Effect", VStr "")].

Definition event_template : list piece :=
  [Text "Dialogue: "; Field "Marked"; Text ","; Field "Start"; Text ",";
   Field "End"; Text ","; Field "Style"; Text ",";
   Field "Name"; Text ","; Field "MarginL"; Text ","; Field "MarginR";
   Text ","; Field "MarginV"; Text ","; Field "Effect"; Text ",";
   Field "Text";
   Text nl].

Definition write_event (name : key) (data : fields) (section : string)
  : result (fields * string) :=
  let data := dict_update String.eqb data event_misc_data in
  kwargs <- keywords "Style" (of_attr name) data ;;
  line <- format event_template kwargs ;;
  Ok (data, section ++ line).

Definition _write_events (self : YoutubeAss) : result YoutubeAss :=
  '(events', section) <- for_items write_event (events self) (Events self) ;;
  Ok (set_Events (set_events self events') section).

Definition _convert_to_ass (self : YoutubeAss) : result YoutubeAss :=
  self <- _write_styles self ;;
  _write_events self.

(** *** [__init__] and [save] *)

Definition Script_Info_header : string :=
  "[Script Info]" ++ nl ++
  "ScriptType: V4.00+" ++ nl ++ "PlayResX: 100" ++ nl ++ "PlayResY: 100" ++ nl.

Definition V4_Styles_header : string :=
  "[V4 Styles]" ++ nl ++ "Format: Name, Fontname, Fontsize, " ++
  "PrimaryColour, SecondaryColour, TertiaryColour, BackColour, Bold, " ++
  "Italic, BorderStyle, Outline, Shadow, Alignment, MarginL, MarginR, " ++
  "MarginV, AlphaLevel, Encoding" ++ nl.

Definition Events_header : string :=
  "[Events]" ++ nl ++ "Format: Marked, Start, End, Style, Name, " ++
  "MarginL, MarginR, MarginV, Effect, Text" ++ nl.

(** the fields as [__init__] sets them before it calls [_parse_xml] *)
Definition new (tree : Element) : YoutubeAss :=
  {| width := 100; height := 100; xml := tree;
     events := []; styles := [];
     Script_Info := Script_Info_header;
     V4_Styles := V4_Styles_header;
     Events := Events_header |}.

(** [YoutubeAss(string)], given the tree that [fromstring(string)]
    returned: the object, or the exception, and what was printed *)
Definition __init__ (tree : Element) : result YoutubeAss * list string :=
  let '(parsed, stdout) := _parse_xml (new tree) in
  (self <- parsed ;; _convert_to_ass self, stdout).

(** what [save] writes to the file *)
Definition save (self : YoutubeAss) : string :=
  Script_Info self ++ nl ++ V4_Styles self ++ nl ++ Events self ++ nl.

(** ** Lines of a text *)

(** [s.split("\n")] *)
Fixpoint lines (s : string) : list string :=
  match s with
  | EmptyString => [""]
  | String c r =>
      if Ascii.eqb c LF then "" :: lines r
      else
        match lines r with
        | l :: ls => String c l :: ls
        | [] => [String c ""]
        end
  end.

Definition has_line (doc line : string) : Prop := In line (lines doc).

(** ** Vocabulary of the properties *)

Definition f0 : float := float_of_int 0.
Definition f10 : float := float_of_int 10.
Definition f20 : float := float_of_int 20.
Definition f40 : float := float_of_int 40.
Definition f45 : float := float_of_int 45.
Definition f50 : float := float_of_int 50.

(** [a == n] for a float and an int, exact like the orderings *)
Definition float_eq_int (a : float) (n : Z) : Prop :=
  float_compare_int a n = Some Eq.

(** the boxes of a moving region as the loop reads them: the [rectRegion]
    children, or the [anchoredRegion] children when there is none *)
Definition region_boxes (moving_region : Element) : list Element :=
  let box := findall moving_region "rectRegion" in
  match box with
  | [] => findall moving_region "anchoredRegion"
  | _ => box
  end.

(** the colours of an annotation: those of its [appearance], or "1" and
    "0" when it has none *)
Definition colours (each : Element) : value * value :=
  match find each "appearance" with
  | Some appearance =>
      (of_attr (get appearance "fgColor"), of_attr (get appearance "bgColor"))
  | None => (VStr "1", VStr "0")
  end.

(** minimum and maximum of two strings in lexicographic order *)
Definition str_min (a b : string) : string := if String.leb a b then a else b.
Definition str_max (a b : string) : string := if String.leb a b then b else a.

(** the entries that the loop builds *)
Definition event_of (txt t1 t2 : string) : fields :=
  [("Text", VBytes txt); ("Start", VStr t1); ("End", VStr t2)].

Definition style_of (fg bg : value) (placement : Z * (float * float * margin float))
  : fields :=
  let '(align, (MarginL, MarginR, MarginV)) := placement in
  [("PrimaryColour", fg); ("BackColour", bg); ("Alignment", VInt align);
   ("MarginL", VFloat MarginL); ("MarginR", VFloat MarginR);
   ("MarginV", margin_value MarginV)].

Definition event_shape (d : fields) : Prop :=
  exists txt t1 t2, d = event_of txt t1 t2.

Definition style_shape (d : fields) : Prop :=
  exists fg bg placement, d = style_of fg bg placement.

(** a field of an entry, rendered; empty when the entry lacks it *)
Definition field (d : fields) (name : string) : string :=
  match dict_get String.eqb d name with
  | Some v => str v
  | None => ""
  end.

(** The two line formats, as the specification words them. *)
Definition style_line (name : key) (d : fields) : string :=
  "Style: " ++ str (of_attr name) ++ ",Arial,4.5," ++
  field d "PrimaryColour" ++ "," ++ field d "PrimaryColour" ++ "," ++
  field d "PrimaryColour" ++ "," ++ field d "BackColour" ++
  ",0,0,1,0.1,0.2," ++ field d "Alignment" ++ "," ++
  field d "MarginL" ++ "," ++ field d "MarginR" ++ "," ++
  field d "MarginV" ++ ",0,0" ++ nl.

Definition event_line (name : key) (d : fields) : string :=
  "Dialogue: Marked=0," ++ field d "Start" ++ "," ++ field d "End" ++ "," ++
  str (of_attr name) ++ ",Speaker,0,0,0,," ++ field d "Text" ++ nl.

(** the lines of a whole collection, one after the other *)
Fixpoint section_of (line : key -> fields -> string) (d : dict key fields)
  : string :=
  match d with
  | [] => ""
  | (name, data) :: rest => line name data ++ section_of line rest
  end.

(** a collection after [data.update(misc_data)] on each entry *)
Definition with_misc (misc_data : fields) (d : dict key fields)
  : dict key fields :=
  map (fun kv => (fst kv, dict_update String.eqb (snd kv) misc_data)) d.

(** the entries that a list of annotations asks to store, in order *)
Definition updates (self : YoutubeAss) (annotations : list Element)
  : list (key * (fields * fields)) :=
  flat_map (fun each =>
              match loop_body self each with
              | Ok (Update ant_id event style) => [(ant_id, (event, style))]
              | _ => []
              end) annotations.

(** the last entry stored under a key *)
Definition last_of {V : Type} (k : key) (l : list (key * V)) : option V :=
  dict_get key_eqb (rev l) k.

(** what a list of annotations makes the loop print, in order *)
Definition diagnostics (self : YoutubeAss) (annotations : list Element)
  : list string :=
  flat_map (fun each =>
              match loop_body self each with
              | Ok (Continue msg) => [msg]
              | _ => []
              end) annotations.

Definition stored_events (self : YoutubeAss) (annotations : list Element)
  : dict key fields :=
  map (fun u => (fst u, fst (snd u))) (updates self annotations).

Definition stored_styles (self : YoutubeAss) (annotations : list Element)
  : dict key fields :=
  map (fun u => (fst u, snd (snd u))) (updates self annotations).

(** the object after the loop has run over a list of annotations *)
Definition after (self : YoutubeAss) (annotations : list Element)
  : YoutubeAss :=
  set_styles
    (set_events self
       (dict_update key_eqb (events self) (stored_events self annotations)))
    (dict_update key_eqb (styles self) (stored_styles self annotations)).

(** a round that raises nothing *)
Definition passes (self : YoutubeAss) (each : Element) : Prop :=
  exists s, loop_body self each = Ok s.

(** The two collections go together: same keys in the same order, no key
    twice, and every entry of the form the loop builds. *)
Definition consistent (self : YoutubeAss) : Prop :=
  keys (events self) = keys (styles self) /\
  NoDup (keys (events self)) /\
  Forall (fun kv => event_shape (snd kv)) (events self) /\
  Forall (fun kv => style_shape (snd kv)) (styles self).

(** ** Sample documents *)

Definition sample_box (t x y w h : string) : Element :=
  mkElement "rectRegion"
    [("x", x); ("y", y); ("w", w); ("h", h); ("t", t)] None [].

Definition sample_moving_region (boxes : list Element) : Element :=
  mkElement "movingRegion" [("type", "rect")] None boxes.

(** a text annotation with the given id, text, boxes and further children *)
Definition sample_annotation (id txt : string) (boxes more : list Element)
  : Element :=
  mkElement "annotation" [("id", id); ("type", "text")] None
    (mkElement "TEXT" [] (Some txt) [] ::
     mkElement "segment" [] None [sample_moving_region boxes] :: more).

Definition sample_annotations (annotations : list Element) : Element :=
  mkElement "annotations" [] None annotations.

Definition sample_document (annotations : list Element) : Element :=
  mkElement "document" [] None [sample_annotations annotations].

(** the annotation of the end-to-end example *)
Definition sample_a1 (txt : string) : Element :=
  sample_annotation "a1" txt
    [sample_box "1000" "0" "0" "20" "10"; sample_box "2000" "0" "0" "20" "10"]
    [].

(** two annotations with the same id *)
Definition sample_twice : list Element :=
  [sample_annotation "a1" "first"
     [sample_box "1000" "0" "0" "20" "10";
      sample_box "2000" "0" "0" "20" "10"] [];
   sample_annotation "a1" "second"
     [sample_box "3000" "60" "60" "20" "10";
      sample_box "4000" "60" "60" "20" "10"] []].

(** an annotation whose times order differently as strings and as
    numbers, with a third box *)
Definition sample_9_10 : Element :=
  sample_annotation "a2" "late"
    [sample_box "9" "0" "0" "20" "10"; sample_box "10" "0" "0" "20" "10";
     sample_box "5" "0" "0" "20" "10"] [].

(** an annotation with an [appearance] that gives no colours *)
Definition sample_plain_appearance : Element :=
  sample_annotation "a3" "plain"
    [sample_box "1000" "0" "0" "20" "10"; sample_box "2000" "0" "0" "20" "10"]
    [mkElement "appearance" [("textSize", "3")] None []].

(** a non-text annotation with an id, and one without *)
Definition sample_highlight : Element :=
  mkElement "annotation" [("id", "h1"); ("type", "highlight")] None [].

Definition sample_highlight_no_id : Element :=
  mkElement "annotation" [("type", "highlight")] None [].

(** ** The anomalies that the loop tests for *)

(** An anomalous annotation, with the diagnostic it gets. *)
Inductive anomaly (each : Element) : string -> Prop :=
| non_text ant_id :
    is_str (get each "type") "text" = false ->
    get each "id" = Some ant_id ->
    anomaly each ("Skipping non-text annotation with id: " ++ ant_id)
| no_TEXT ant_id :
    is_str (get each "type") "text" = true ->
    find each "TEXT" = None ->
    get each "id" = Some ant_id ->
    anomaly each ("Skipping empty annotation with id: " ++ ant_id)
| no_boxes TEXT txt segment moving_region :
    is_str (get each "type") "text" = true ->
    find each "TEXT" = Some TEXT -> text TEXT = Some txt ->
    find each "segment" = Some segment ->
    find segment "movingRegion" = Some moving_region ->
    region_boxes moving_region = [] ->
    anomaly each "No known regions inside <movingRegion>? Skipping..."
| never_shown TEXT txt segment moving_region box0 box1 rest s0 s1 :
    is_str (get each "type") "text" = true ->
    find each "TEXT" = Some TEXT -> text TEXT = Some txt ->
    find each "segment" = Some segment ->
    find segment "movingRegion" = Some moving_region ->
    region_boxes moving_region = box0 :: box1 :: rest ->
    get box0 "t" = Some s0 -> get box1 "t" = Some s1 ->
    s0 = "never" \/ s1 = "never" ->
    anomaly each "Found annotation that shouldn't be shown, skipping...".

(** A valid annotation: a text annotation with a text, a moving region
    with two boxes that carry times other than "never", and numbers for the
    place and size of the first box. *)
Inductive valid (each : Element) : Prop :=
| valid_annotation TEXT txt segment moving_region box0 box1 rest s0 s1 x y w h :
    is_str (get each "type") "text" = true ->
    find each "TEXT" = Some TEXT -> text TEXT = Some txt ->
    find each "segment" = Some segment ->
    find segment "movingRegion" = Some moving_region ->
    region_boxes moving_region = box0 :: box1 :: rest ->
    get box0 "t" = Some s0 -> get box1 "t" = Some s1 ->
    s0 <> "never" -> s1 <> "never" ->
    py_float (get box0 "x") = Ok x -> py_float (get box0 "y") = Ok y ->
    py_float (get box0 "w") = Ok w -> py_float (get box0 "h") = Ok h ->
    valid each.

(** a text annotation without a [segment] child, and one with a single box *)
Definition sample_no_segment : Element :=
  mkElement "annotation" [("id", "b1"); ("type", "text")] None
    [mkElement "TEXT" [] (Some "lost") []].

Definition sample_one_box : Element :=
  sample_annotation "b2" "still" [sample_box "1000" "0" "0" "20" "10"] [].

(** anomalous annotations of the four kinds *)
Definition sample_no_TEXT : Element :=
  mkElement "annotation" [("id", "c1"); ("type", "text")] None [].

Definition sample_no_boxes : Element := sample_annotation "c2" "nowhere" [] [].

Definition sample_never : Element :=
  sample_annotation "c3" "hidden"
    [sample_box "never" "0" "0" "20" "10";
     sample_box "never" "0" "0" "20" "10"] [].

(** a document with one anomaly of each kind and one valid annotation *)
Definition sample_mixed : list Element :=
  [sample_highlight; sample_no_TEXT; sample_no_boxes; sample_never;
   sample_a1 "hello"].

(** ** Vocabulary of the further properties *)

(** the number that a margin stands for, in exact arithmetic *)
Definition margin_Q (m : margin Q) : Q :=
  match m with
  | Num a => a
  | Lit n => inject_Z n
  end.

(** the exception of the first of some attribute values that [float] does
    not take, if there is one *)
Fixpoint first_bad (attrs : list (option string)) : option exn :=
  match attrs with
  | [] => None
  | a :: rest =>
      match py_float a with
      | Ok _ => first_bad rest
      | Raise e => Some e
      end
  end.

(** a text annotation with a text *)
Definition has_text (each : Element) : Prop :=
  is_str (get each "type") "text" = true /\
  exists TEXT txt, find each "TEXT" = Some TEXT /\ text TEXT = Some txt.

(** its moving region *)
Definition has_region (each moving_region : Element) : Prop :=
  exists segment,
    find each "segment" = Some segment /\
    find segment "movingRegion" = Some moving_region.

(** A malformed annotation, with the exception it raises. *)
Inductive malformed (each : Element) : exn -> Prop :=
| skipped_without_id :
    is_str (get each "type") "text" = false \/ find each "TEXT" = None ->
    get each "id" = None ->
    malformed each TypeError
| empty_TEXT TEXT :
    is_str (get each "type") "text" = true ->
    find each "TEXT" = Some TEXT -> text TEXT = None ->
    malformed each AttributeError
| no_segment :
    has_text each -> find each "segment" = None ->
    malformed each AttributeError
| no_moving_region segment :
    has_text each -> find each "segment" = Some segment ->
    find segment "movingRegion" = None ->
    malformed each AttributeError
| single_box moving_region box0 :
    has_text each -> has_region each moving_region ->
    region_boxes moving_region = [box0] ->
    malformed each IndexError
| no_time moving_region box0 box1 rest :
    has_text each -> has_region each moving_region ->
    region_boxes moving_region = box0 :: box1 :: rest ->
    get box0 "t" = None \/ get box1 "t" = None ->
    malformed each TypeError
| bad_number moving_region box0 box1 rest s0 s1 e :
    has_text each -> has_region each moving_region ->
    region_boxes moving_region = box0 :: box1 :: rest ->
    get box0 "t" = Some s0 -> get box1 "t" = Some s1 ->
    s0 <> "never" -> s1 <> "never" ->
    first_bad [get box0 "x"; get box0 "y"; get box0 "w"; get box0 "h"]
      = Some e ->
    malformed each e.

(** the keys of a list in the order of their first occurrence *)
Fixpoint first_occurrences (l : list key) : list key :=
  match l with
  | [] => []
  | k :: rest =>
      k :: filter (fun k' => negb (key_eqb k' k)) (first_occurrences rest)
  end.

(** malformed annotations of several kinds *)
Definition sample_empty_TEXT : Element :=
  mkElement "annotation" [("id", "d1"); ("type", "text")] None
    [mkElement "TEXT" [] None []].

Definition sample_bad_number : Element :=
  sample_annotation "d2" "where"
    [sample_box "1000" "0" "left" "20" "10";
     sample_box "2000" "0" "0" "20" "10"] [].

(** "12" in Arabic-Indic digits (U+0661 U+0662) and after a no-break space
    (U+00A0), as UTF-8 *)
Definition arabic_12 : string :=
  String "217" (String "161" (String "217" (String "162" ""))).

Definition nbsp_12 : string := String "194" (String "160" "12").

(** a valid annotation whose box is placed and sized in such numbers *)
Definition sample_other_script : Element :=
  sample_annotation "e1" "there"
    [sample_box "1000" arabic_12 "0" nbsp_12 "10";
     sample_box "2000" "0" "0" "20" "10"] [].

(** the annotations of the three kinds, side by side *)
Definition sample_broken : list Element :=
  [sample_highlight; sample_a1 "hello"; sample_never; sample_one_box;
   sample_9_10].

(** the ids "a1", "a2" and "a1" again *)
Definition sample_order : list Element :=
  [sample_a1 "one"; sample_9_10; sample_a1 "two"].

(** anomalous annotations only *)
Definition sample_skipped : list Element :=
  [sample_highlight; sample_no_TEXT; sample_no_boxes; sample_never].

(** what holds of every style that is stored: the two colours, an int
    alignment from 1 to 9, float margins to the left and to the right, and
    a vertical margin that is the int 0 in the middle band and a float in
    the other two *)
Definition style_placed (d : fields) : Prop :=
  exists fg bg alignment marginLeft marginRight marginVertical,
    d = [("PrimaryColour", fg); ("BackColour", bg);
         ("Alignment", VInt alignment);
         ("MarginL", VFloat marginLeft); ("MarginR", VFloat marginRight);
         ("MarginV", marginVertical)] /\
    1 <= alignment <= 9 /\
    ((In alignment [4; 5; 6] /\ marginVertical = VInt 0) \/
     (In alignment [1; 2; 3; 7; 8; 9] /\
      exists v, marginVertical = VFloat v)).

(** what holds of every event that is stored: the encoded text, and two
    times in string order, neither of them "never" *)
Definition event_timed (d : fields) : Prop :=
  exists txt t1 t2,
    d = event_of txt t1 t2 /\
    String.leb t1 t2 = true /\ t1 <> "never" /\ t2 <> "never".

(** the placement of an int box, with its numbers turned into floats *)
Definition float_of_margin (m : margin Z) : margin float :=
  match m with
  | Num a => Num (float_of_int a)
  | Lit n => Lit n
  end.

Definition float_of_placement (p : Z * (Z * Z * margin Z))
  : Z * (float * float * margin float) :=
  let '(alignment, (marginLeft, marginRight, marginVertical)) := p in
  (alignment,
   (float_of_int marginLeft, float_of_int marginRight,
    float_of_margin marginVertical)).

(** equality of floats as data *)
Definition same_float (a b : float) : bool :=
  match a, b with
  | S754_zero s, S754_zero s' => Bool.eqb s s'
  | S754_infinity s, S754_infinity s' => Bool.eqb s s'
  | S754_nan, S754_nan => true
  | S754_finite s m e, S754_finite s' m' e' =>
      Bool.eqb s s' && Pos.eqb m m' && Z.eqb e e'
  | _, _ => false
  end.

(** the ints from 0 to 100 *)
Definition percents : list Z := map Z.of_nat (seq 0 101).

(** on two such ints, subtracting both from 100 in floats is exact, and
    comparing one with 50 in floats is as on the ints *)
Definition exact_on (a b : Z) : bool :=
  same_float
    (float_sub (float_sub (float_of_int 100) (float_of_int a))
       (float_of_int b))
    (float_of_int (100 - a - b)) &&
  Bool.eqb (float_lt_int (float_of_int a) 50) (a <? 50) &&
  Bool.eqb (float_gt_int (float_of_int a) 50) (a >? 50).

(** * Properties *)

(** ** The position mapper *)

(** C2, as stated, fails: the box (45, 45, 10, 10) is not mapped to the
    alignment 5 with margins (45, 45, 0), neither on ints nor on floats. *)
Lemma get_pos_45_not_center :
  _get_pos (A := Z) 100 100 45 45 10 10 <> (5, (45, 45, Lit 0)) /\
  _get_pos (A := Z) 100 100 45 45 10 10 <> (5, (45, 45, Num 0)) /\
  fst (_get_pos (A := float) 100 100 f45 f45 f10 f10) <> 5.
Proof.
  repeat split; vm_compute; discriminate.
Qed.

(** C2, amended: on the 100x100 canvas the box (45, 45, 10, 10) has its
    corner left of and above the midpoint 50, so it is mapped to the
    alignment 7 with margins (45, 45, 45); the alignment 5 with a vertical
    margin 0 is what a box with its corner at the midpoint gets, such as
    (50, 50, 10, 10) with margins (50, 40, 0).  Both hold on ints and on
    floats. *)
Theorem get_pos_45_top_left :
  _get_pos (A := Z) 100 100 45 45 10 10 = (7, (45, 45, Num 45)) /\
  _get_pos (A := float) 100 100 f45 f45 f10 f10 = (7, (f45, f45, Num f45)) /\
  _get_pos (A := Z) 100 100 50 50 10 10 = (5, (50, 40, Lit 0)) /\
  _get_pos (A := float) 100 100 f50 f50 f10 f10 = (5, (f50, f40, Lit 0)).
Proof.
  repeat split; vm_compute; reflexivity.
Qed.

(** C4: on the 100x100 canvas the band is chosen by comparing [y] with 50,
    which fixes the vertical margin and the row of alignments, and the
    variant within the band by comparing [x] with 50. *)
Theorem get_pos_bands (x y w h : float) :
  let '(alignment, (marginLeft, marginRight, marginVertical)) :=
    _get_pos 100 100 x y w h in
  (float_lt_int y 50 = true ->
     marginVertical = Num y /\ In alignment [7; 8; 9]) /\
  (float_gt_int y 50 = true ->
     marginVertical = Num (float_sub (float_sub (float_of_int 100) y) h) /\
     In alignment [1; 2; 3]) /\
  (float_eq_int y 50 ->
     marginVertical = Lit 0 /\ In alignment [4; 5; 6]) /\
  (float_lt_int x 50 = true -> In alignment [7; 1; 4]) /\
  (float_gt_int x 50 = true -> In alignment [9; 3; 6]) /\
  (float_eq_int x 50 -> In alignment [8; 2; 5]).
Proof.
  unfold _get_pos, float_eq_int; cbn [lt_int gt_int Number_float sub rsub_int].
  change (100 / 2) with 50.
  unfold float_lt_int, float_gt_int.
  destruct (float_compare_int y 50) as [[ | | ] | ];
    destruct (float_compare_int x 50) as [[ | | ] | ];
    cbn; repeat split; intros; try discriminate; auto 10.
Qed.

(** C5: in exact arithmetic, for a box whose corner lies on a canvas of
    even sizes, the alignment is one of 1..9 and the two horizontal margins
    and the width add up to the canvas width. *)
Theorem get_pos_margins_exact (canvasWidth canvasHeight : Z) (x y w h : Q) :
  Z.even canvasWidth = true -> Z.even canvasHeight = true ->
  (0 <= x <= inject_Z canvasWidth)%Q ->
  (0 <= y <= inject_Z canvasHeight)%Q ->
  let '(alignment, (marginLeft, marginRight, _)) :=
    _get_pos canvasWidth canvasHeight x y w h in
  1 <= alignment <= 9 /\
  (marginLeft + marginRight + w == inject_Z canvasWidth)%Q.
Proof.
  intros _ _ _ _.
  unfold _get_pos; cbn [lt_int gt_int Number_Q sub rsub_int].
  destruct (Qlt_int y (canvasHeight / 2)), (Qgt_int y (canvasHeight / 2)),
    (Qlt_int x (canvasWidth / 2)), (Qgt_int x (canvasWidth / 2));
    (split; [lia | ring]).
Qed.

Lemma get_pos_margins_exact_witness :
  Z.even 100 = true /\
  (0 <= 25 # 2 <= inject_Z 100)%Q /\ (0 <= 50 # 1 <= inject_Z 100)%Q /\
  let '(alignment, (marginLeft, marginRight, _)) :=
    _get_pos 100 100 (25 # 2)%Q (50 # 1)%Q (3 # 4)%Q (10 # 1)%Q in
  1 <= alignment <= 9 /\ (marginLeft + marginRight + (3 # 4) == inject_Z 100)%Q.
Proof.
  assert (Hx : (0 <= 25 # 2 <= inject_Z 100)%Q) by (split; discriminate).
  assert (Hy : (0 <= 50 # 1 <= inject_Z 100)%Q) by (split; discriminate).
  split; [reflexivity | split; [exact Hx | split; [exact Hy | ]]].
  apply (get_pos_margins_exact 100 100 (25 # 2) (50 # 1) (3 # 4) (10 # 1)
           eq_refl eq_refl Hx Hy).
Defined.

(** ** Dictionaries *)

Lemma key_eqb_eq (a b : key) : key_eqb a b = true <-> a = b.
Proof.
  destruct a as [x | ], b as [y | ]; cbn; try (split; congruence).
  rewrite String.eqb_eq; split; congruence.
Qed.

Section DictFacts.
Context {K V : Type}.
Variable eqb : K -> K -> bool.
Hypothesis eqb_eq : forall a b, eqb a b = true <-> a = b.

Lemma eqb_refl (k : K) : eqb k k = true.
Proof. apply eqb_eq; reflexivity. Qed.

Lemma eqb_neq (a b : K) : a <> b -> eqb a b = false.
Proof.
  intros Hab; destruct (eqb a b) eqn:E; [ | reflexivity].
  apply eqb_eq in E; contradiction.
Qed.

Lemma dict_get_set_same (d : dict K V) k v :
  dict_get eqb (dict_set eqb d k v) k = Some v.
Proof.
  induction d as [ | [k' v'] d IH]; cbn.
  - rewrite eqb_refl; reflexivity.
  - destruct (eqb k k') eqn:E; cbn; rewrite E; [reflexivity | exact IH].
Qed.

Lemma dict_get_set_other (d : dict K V) k k' v :
  k <> k' -> dict_get eqb (dict_set eqb d k v) k' = dict_get eqb d k'.
Proof.
  intros Hne; induction d as [ | [k0 v0] d IH]; cbn.
  - rewrite (eqb_neq k' k); [reflexivity | congruence].
  - destruct (eqb k k0) eqn:E; cbn.
    + apply eqb_eq in E; subst k0.
      rewrite (eqb_neq k' k); [reflexivity | congruence].
    + rewrite IH; reflexivity.
Qed.

Lemma dict_get_None (d : dict K V) k :
  dict_get eqb d k = None <-> ~ In k (keys d).
Proof.
  induction d as [ | [k0 v0] d IH]; cbn.
  - tauto.
  - destruct (eqb k k0) eqn:E.
    + apply eqb_eq in E; subst; split; [discriminate | tauto].
    + rewrite IH; split.
      * intros Hn [H0 | Hin]; [ | tauto].
        subst k0; rewrite eqb_refl in E; discriminate.
      * tauto.
Qed.

Lemma dict_get_Some_In (d : dict K V) k v :
  dict_get eqb d k = Some v -> In k (keys d).
Proof.
  induction d as [ | [k0 v0] d IH]; cbn; [discriminate | ].
  destruct (eqb k k0) eqn:E; [ | auto].
  apply eqb_eq in E; auto.
Qed.

(** assigning keeps the keys when the key is there and appends it when it
    is not *)
Lemma keys_dict_set (d : dict K V) k v :
  keys (dict_set eqb d k v) =
  match dict_get eqb d k with
  | Some _ => keys d
  | None => (keys d ++ [k])%list
  end.
Proof.
  induction d as [ | [k0 v0] d IH]; cbn; [reflexivity | ].
  destruct (eqb k k0) eqn:E; cbn; [reflexivity | ].
  unfold keys in IH; rewrite IH.
  destruct (dict_get eqb d k); reflexivity.
Qed.

Lemma NoDup_keys_dict_set (d : dict K V) k v :
  NoDup (keys d) -> NoDup (keys (dict_set eqb d k v)).
Proof.
  intros Hnd; rewrite keys_dict_set.
  destruct (dict_get eqb d k) eqn:E; [exact Hnd | ].
  apply dict_get_None in E.
  assert (H : NoDup (k :: rev (keys d))).
  { constructor; [rewrite <- in_rev; exact E | apply NoDup_rev; exact Hnd]. }
  apply NoDup_rev in H; cbn in H; rewrite rev_involutive in H; exact H.
Qed.

Lemma Forall_dict_set (P : V -> Prop) (d : dict K V) k v :
  Forall (fun kv => P (snd kv)) d -> P v ->
  Forall (fun kv => P (snd kv)) (dict_set eqb d k v).
Proof.
  intros Hd Hv; induction Hd as [ | [k0 v0] d H0 Hd IH]; cbn.
  - constructor; [exact Hv | constructor].
  - destruct (eqb k k0); constructor; auto.
Qed.

(** looking a key up after a run of assignments: the last assignment to
    that key, or what was there before *)
Lemma dict_get_update (d other : dict K V) k :
  dict_get eqb (dict_update eqb d other) k =
  match dict_get eqb (rev other) k with
  | Some v => Some v
  | None => dict_get eqb d k
  end.
Proof.
  revert d; induction other as [ | [k0 v0] other IH]; intros d; cbn.
  - reflexivity.
  - unfold dict_update in IH; rewrite IH.
    assert (Happ : forall l, dict_get eqb (l ++ [(k0, v0)])%list k =
                     match dict_get eqb l k with
                     | Some v => Some v
                     | None => if eqb k k0 then Some v0 else None
                     end).
    { induction l as [ | [k1 v1] l IHl]; cbn; [reflexivity | ].
      destruct (eqb k k1); [reflexivity | exact IHl]. }
    rewrite Happ.
    destruct (dict_get eqb (rev other) k); [reflexivity | ].
    destruct (eqb k k0) eqn:E.
    + apply eqb_eq in E; subst; apply dict_get_set_same.
    + apply dict_get_set_other.
      intros ->; rewrite eqb_refl in E; discriminate.
Qed.
End DictFacts.

(** ** One round of the loop *)

(** The code's [min] and [max] are the lexicographic minimum and
    maximum. *)
Lemma ltb_leb_swap (a b : string) : String.ltb b a = negb (String.leb a b).
Proof.
  unfold String.ltb, String.leb.
  rewrite (String.compare_antisym a b).
  destruct (String.compare b a); reflexivity.
Qed.

Lemma py_min_str (a b : string) :
  py_min (Some a) (Some b) = Ok (Some (str_min a b)).
Proof.
  unfold py_min, py_lt, str_min; cbn [bind].
  rewrite ltb_leb_swap; destruct (String.leb a b) eqn:E; cbn; try reflexivity.
Qed.

Lemma py_max_str (a b : string) :
  py_max (Some a) (Some b) = Ok (Some (str_max a b)).
Proof.
  unfold py_max, py_lt, str_max; cbn [bind].
  destruct (String.ltb a b) eqn:E; unfold String.ltb, String.leb in *;
    destruct (String.compare a b) eqn:C; try discriminate; try reflexivity.
  apply String.compare_eq_iff in C; subst; reflexivity.
Qed.

Lemma str_min_le_max (a b : string) :
  String.leb (str_min a b) (str_max a b) = true.
Proof.
  unfold str_min, str_max.
  destruct (String.leb a b) eqn:E; [exact E | ].
  destruct (String.leb_total a b) as [H | H]; congruence.
Qed.

(** What a round that stores an entry has read, and what it stores. *)
Lemma loop_body_Update self each ant_id event style :
  loop_body self each = Ok (Update ant_id event style) ->
  exists TEXT txt segment moving_region box0 box1 rest s0 s1 x y w h,
    is_str (get each "type") "text" = true /\
    find each "TEXT" = Some TEXT /\ text TEXT = Some txt /\
    find each "segment" = Some segment /\
    find segment "movingRegion" = Some moving_region /\
    region_boxes moving_region = box0 :: box1 :: rest /\
    get box0 "t" = Some s0 /\ get box1 "t" = Some s1 /\
    String.eqb (str_min s0 s1) "never" = false /\
    String.eqb (str_max s0 s1) "never" = false /\
    py_float (get box0 "x") = Ok x /\ py_float (get box0 "y") = Ok y /\
    py_float (get box0 "w") = Ok w /\ py_float (get box0 "h") = Ok h /\
    ant_id = get each "id" /\
    event = event_of txt (str_min s0 s1) (str_max s0 s1) /\
    style = style_of (fst (colours each)) (snd (colours each))
              (_get_pos (width self) (height self) x y w h).
Proof.
  unfold loop_body; intros Hb.
  destruct (is_str (get each "type") "text") eqn:Htype; cbn [negb] in Hb.
  2: { destruct (concat _ (get each "id")); discriminate. }
  destruct (find each "TEXT") as [TEXT | ] eqn:HTEXT.
  2: { destruct (concat _ (get each "id")); discriminate. }
  destruct (text TEXT) as [txt | ] eqn:Htxt; cbn [encode bind] in Hb;
    [ | discriminate].
  destruct (find each "segment") as [segment | ] eqn:Hseg;
    cbn [method bind] in Hb; [ | discriminate].
  destruct (find segment "movingRegion") as [moving_region | ] eqn:Hmr;
    cbn [method bind] in Hb; [ | discriminate].
  cbv zeta in Hb.
  change (match findall moving_region "rectRegion" with
          | [] => findall moving_region "anchoredRegion"
          | _ :: _ => findall moving_region "rectRegion"
          end) with (region_boxes moving_region) in Hb.
  destruct (region_boxes moving_region) as [ | box0 [ | box1 rest]] eqn:Hbox;
    try discriminate.
  cbn [index nth_error bind] in Hb.
  destruct (get box0 "t") as [s0 | ] eqn:Ht0;
    [ | destruct (get box1 "t"); discriminate].
  destruct (get box1 "t") as [s1 | ] eqn:Ht1; [ | discriminate].
  rewrite py_min_str, py_max_str in Hb; cbn [bind is_str] in Hb.
  destruct (String.eqb (str_min s0 s1) "never") eqn:Hn1;
    [discriminate | ].
  destruct (String.eqb (str_max s0 s1) "never") eqn:Hn2;
    [discriminate | ].
  cbn [orb] in Hb.
  destruct (py_float (get box0 "x")) as [x | ] eqn:Hx; [ | discriminate].
  destruct (py_float (get box0 "y")) as [y | ] eqn:Hy; [ | discriminate].
  destruct (py_float (get box0 "w")) as [w | ] eqn:Hw; [ | discriminate].
  destruct (py_float (get box0 "h")) as [h | ] eqn:Hh; [ | discriminate].
  cbn [bind] in Hb.
  exists TEXT, txt, segment, moving_region, box0, box1, rest, s0, s1, x, y, w, h.
  unfold colours, style_of, event_of.
  destruct (_get_pos (width self) (height self) x y w h)
    as [align [[MarginL MarginR] MarginV]].
  destruct (find each "appearance") as [appearance | ];
    cbn [fst snd of_attr] in *; inversion Hb; subst;
    repeat (split; [reflexivity || assumption | ]); reflexivity.
Qed.

(** Conversely, an annotation that has all of this is stored. *)
Lemma loop_body_valid self each TEXT txt segment moving_region
      box0 box1 rest s0 s1 x y w h :
  is_str (get each "type") "text" = true ->
  find each "TEXT" = Some TEXT -> text TEXT = Some txt ->
  find each "segment" = Some segment ->
  find segment "movingRegion" = Some moving_region ->
  region_boxes moving_region = box0 :: box1 :: rest ->
  get box0 "t" = Some s0 -> get box1 "t" = Some s1 ->
  String.eqb (str_min s0 s1) "never" = false ->
  String.eqb (str_max s0 s1) "never" = false ->
  py_float (get box0 "x") = Ok x -> py_float (get box0 "y") = Ok y ->
  py_float (get box0 "w") = Ok w -> py_float (get box0 "h") = Ok h ->
  loop_body self each =
  Ok (Update (get each "id")
        (event_of txt (str_min s0 s1) (str_max s0 s1))
        (style_of (fst (colours each)) (snd (colours each))
           (_get_pos (width self) (height self) x y w h))).
Proof.
  intros Htype HTEXT Htxt Hseg Hmr Hbox Ht0 Ht1 Hn1 Hn2 Hx Hy Hw Hh.
  unfold loop_body.
  rewrite Htype, HTEXT, Htxt, Hseg; cbn [negb encode method bind].
  rewrite Hmr; cbn [method bind]; cbv zeta.
  change (match findall moving_region "rectRegion" with
          | [] => findall moving_region "anchoredRegion"
          | _ :: _ => findall moving_region "rectRegion"
          end) with (region_boxes moving_region).
  rewrite Hbox; cbn [index nth_error bind].
  rewrite Ht0, Ht1, py_min_str, py_max_str; cbn [bind is_str].
  rewrite Hn1, Hn2, Hx, Hy, Hw, Hh; cbn [orb bind].
  unfold colours, style_of, event_of.
  destruct (_get_pos (width self) (height self) x y w h)
    as [align [[MarginL MarginR] MarginV]].
  destruct (find each "appearance"); reflexivity.
Qed.

(** A round reads [self.width] and [self.height] and nothing else of
    [self]. *)
Lemma loop_body_canvas self self' each :
  width self = width self' -> height self = height self' ->
  loop_body self each = loop_body self' each.
Proof.
  intros Hw Hh; unfold loop_body; rewrite Hw, Hh; reflexivity.
Qed.

(** ** The loop over the annotations *)

Lemma after_nil self : after self [] = self.
Proof. destruct self; reflexivity. Qed.

Lemma updates_canvas self self' l :
  width self = width self' -> height self = height self' ->
  updates self l = updates self' l.
Proof.
  intros Hw Hh; unfold updates; induction l as [ | each l IH]; cbn;
    [reflexivity | ].
  rewrite IH, (loop_body_canvas self self' each Hw Hh); reflexivity.
Qed.

Lemma diagnostics_canvas self self' l :
  width self = width self' -> height self = height self' ->
  diagnostics self l = diagnostics self' l.
Proof.
  intros Hw Hh; unfold diagnostics; induction l as [ | each l IH]; cbn;
    [reflexivity | ].
  rewrite IH, (loop_body_canvas self self' each Hw Hh); reflexivity.
Qed.

Lemma updates_cons_Continue self each l msg :
  loop_body self each = Ok (Continue msg) ->
  updates self (each :: l) = updates self l.
Proof. intros Hb; unfold updates; cbn; rewrite Hb; reflexivity. Qed.

Lemma updates_cons_Update self each l ant_id event style :
  loop_body self each = Ok (Update ant_id event style) ->
  updates self (each :: l) = (ant_id, (event, style)) :: updates self l.
Proof. intros Hb; unfold updates; cbn; rewrite Hb; reflexivity. Qed.

Lemma updates_cons_Raise self each l e :
  loop_body self each = Raise e ->
  updates self (each :: l) = updates self l.
Proof. intros Hb; unfold updates; cbn; rewrite Hb; reflexivity. Qed.

Lemma diagnostics_cons_Continue self each l msg :
  loop_body self each = Ok (Continue msg) ->
  diagnostics self (each :: l) = msg :: diagnostics self l.
Proof. intros Hb; unfold diagnostics; cbn; rewrite Hb; reflexivity. Qed.

Lemma diagnostics_cons_Update self each l ant_id event style :
  loop_body self each = Ok (Update ant_id event style) ->
  diagnostics self (each :: l) = diagnostics self l.
Proof. intros Hb; unfold diagnostics; cbn; rewrite Hb; reflexivity. Qed.

Lemma after_Continue self each l msg :
  loop_body self each = Ok (Continue msg) ->
  after self (each :: l) = after self l.
Proof.
  intros Hb; unfold after, stored_events, stored_styles.
  rewrite (updates_cons_Continue self each l msg Hb); reflexivity.
Qed.

Lemma after_Update self each l ant_id event style :
  loop_body self each = Ok (Update ant_id event style) ->
  after self (each :: l) =
  after (set_styles
           (set_events self
              (dict_update key_eqb (events self) [(ant_id, event)]))
           (dict_update key_eqb (styles self) [(ant_id, style)])) l.
Proof.
  intros Hb.
  unfold after, stored_events, stored_styles.
  rewrite (updates_canvas
             (set_styles
                (set_events self
                   (dict_update key_eqb (events self) [(ant_id, event)]))
                (dict_update key_eqb (styles self) [(ant_id, style)]))
             self l eq_refl eq_refl).
  rewrite (updates_cons_Update self each l _ _ _ Hb).
  destruct self; reflexivity.
Qed.

(** The loop either runs through, storing what the rounds ask for and
    printing their diagnostics, ... *)
Lemma parse_loop_passes l : forall self stdout,
  Forall (passes self) l ->
  parse_loop l self stdout =
  (Ok (after self l), (stdout ++ diagnostics self l)%list).
Proof.
  induction l as [ | each l IH]; intros self stdout Hall.
  - cbn; rewrite after_nil, app_nil_r; reflexivity.
  - inversion Hall as [ | ? ? [s Hs] Hrest]; subst.
    cbn [parse_loop]; rewrite Hs.
    destruct s as [msg | ant_id event style].
    + rewrite IH by exact Hrest.
      rewrite (after_Continue self each l msg Hs).
      rewrite (diagnostics_cons_Continue self each l msg Hs).
      rewrite <- app_assoc; reflexivity.
    + rewrite IH.
      * rewrite (after_Update self each l _ _ _ Hs).
        rewrite (diagnostics_canvas (set_styles (set_events self _) _) self l
                   eq_refl eq_refl).
        rewrite (diagnostics_cons_Update self each l _ _ _ Hs); reflexivity.
      * revert Hrest; apply Forall_impl; intros a [s Ha]; exists s.
        rewrite <- Ha; apply loop_body_canvas; reflexivity.
Qed.

(** ... or stops at the first round that raises. *)
Lemma parse_loop_Ok l : forall self stdout self' stdout',
  parse_loop l self stdout = (Ok self', stdout') ->
  Forall (passes self) l.
Proof.
  induction l as [ | each l IH]; intros self stdout self' stdout' Hp;
    [constructor | ].
  cbn [parse_loop] in Hp.
  destruct (loop_body self each) as [[msg | ant_id event style] | e] eqn:Hb;
    [ | | discriminate].
  - constructor; [eexists; exact Hb | eapply IH; exact Hp].
  - constructor; [eexists; exact Hb | ].
    apply IH in Hp; revert Hp; apply Forall_impl; intros a [s Ha]; exists s.
    rewrite <- Ha; apply loop_body_canvas; reflexivity.
Qed.

Lemma parse_loop_inv l self stdout self' stdout' :
  parse_loop l self stdout = (Ok self', stdout') ->
  self' = after self l /\ stdout' = (stdout ++ diagnostics self l)%list.
Proof.
  intros Hp; pose proof (parse_loop_Ok _ _ _ _ _ Hp) as Hall.
  rewrite (parse_loop_passes _ _ stdout Hall) in Hp; inversion Hp; auto.
Qed.

(** ** Strings *)

Lemma append_assoc (a b c : string) : (a ++ b) ++ c = a ++ (b ++ c).
Proof. induction a as [ | x a IH]; cbn; [reflexivity | rewrite IH; reflexivity]. Qed.

Lemma append_empty_r (a : string) : a ++ "" = a.
Proof. induction a as [ | x a IH]; cbn; [reflexivity | rewrite IH; reflexivity]. Qed.

(** ** The two collections stay together *)

Lemma keys_dict_set_sync {K V W : Type} (eqb : K -> K -> bool)
      (d1 : dict K V) (d2 : dict K W) k v w :
  keys d1 = keys d2 ->
  keys (dict_set eqb d1 k v) = keys (dict_set eqb d2 k w).
Proof.
  revert d2; induction d1 as [ | [k1 v1] d1 IH]; intros [ | [k2 v2] d2] Hk;
    try discriminate; [reflexivity | ].
  cbn in Hk; injection Hk as -> Hk; cbn.
  destruct (eqb k k2); cbn; [congruence | ].
  f_equal; apply IH; exact Hk.
Qed.

Lemma keys_dict_update_sync {K V W : Type} (eqb : K -> K -> bool)
      (o1 : dict K V) (o2 : dict K W) : forall d1 d2,
  keys o1 = keys o2 -> keys d1 = keys d2 ->
  keys (dict_update eqb d1 o1) = keys (dict_update eqb d2 o2).
Proof.
  revert o2; induction o1 as [ | [k1 v1] o1 IH]; intros [ | [k2 v2] o2] d1 d2 Ho Hd;
    try discriminate; [exact Hd | ].
  cbn in Ho; injection Ho as -> Ho.
  apply (IH o2 (dict_set eqb d1 k2 v1) (dict_set eqb d2 k2 v2) Ho).
  apply keys_dict_set_sync; exact Hd.
Qed.

Lemma NoDup_keys_dict_update {V : Type} (other : dict key V) : forall d,
  NoDup (keys d) -> NoDup (keys (dict_update key_eqb d other)).
Proof.
  induction other as [ | [k v] other IH]; intros d Hd; [exact Hd | ].
  apply (IH (dict_set key_eqb d k v)).
  apply (NoDup_keys_dict_set key_eqb key_eqb_eq); exact Hd.
Qed.

Lemma Forall_dict_update {V : Type} (P : V -> Prop) (other : dict key V) :
  forall d,
  Forall (fun kv => P (snd kv)) d -> Forall (fun kv => P (snd kv)) other ->
  Forall (fun kv => P (snd kv)) (dict_update key_eqb d other).
Proof.
  induction other as [ | [k v] other IH]; intros d Hd Ho; [exact Hd | ].
  inversion Ho; subst.
  apply (IH (dict_set key_eqb d k v)); [ | assumption].
  apply Forall_dict_set; assumption.
Qed.

Lemma updates_shape self l :
  Forall (fun u => event_shape (fst (snd u)) /\ style_shape (snd (snd u)))
    (updates self l).
Proof.
  induction l as [ | each l IH]; [constructor | ].
  destruct (loop_body self each) as [[msg | ant_id event style] | e] eqn:Hb.
  - rewrite (updates_cons_Continue self each l msg Hb); exact IH.
  - rewrite (updates_cons_Update self each l _ _ _ Hb); constructor;
      [ | exact IH].
    apply loop_body_Update in Hb.
    destruct Hb as (T & txt & sg & mr & b0 & b1 & r & s0 & s1 & x & y & w & h
                    & Hb).
    decompose [and] Hb; subst; split; cbn [fst snd].
    + eexists _, _, _; reflexivity.
    + eexists _, _, _; reflexivity.
  - rewrite (updates_cons_Raise self each l e Hb); exact IH.
Qed.

Lemma keys_stored self l :
  keys (stored_events self l) = keys (stored_styles self l).
Proof.
  unfold keys, stored_events, stored_styles; rewrite !map_map; reflexivity.
Qed.

Lemma after_consistent self l : consistent self -> consistent (after self l).
Proof.
  intros (Hk & Hnd & He & Hs).
  pose proof (updates_shape self l) as Hu.
  unfold consistent, after; destruct self; cbn in *.
  repeat split.
  - apply keys_dict_update_sync; [apply keys_stored | exact Hk].
  - apply NoDup_keys_dict_update; exact Hnd.
  - apply Forall_dict_update; [exact He | ].
    unfold stored_events; rewrite Forall_map.
    revert Hu; apply Forall_impl; cbn; tauto.
  - apply Forall_dict_update; [exact Hs | ].
    unfold stored_styles; rewrite Forall_map.
    revert Hu; apply Forall_impl; cbn; tauto.
Qed.

Lemma new_consistent tree : consistent (new tree).
Proof. repeat split; cbn; constructor. Qed.

(** ** The serialisers *)

(** On an entry of the form the loop builds, the code writes the line of
    the specified format. *)
Lemma write_style_shape name data section :
  style_shape data ->
  write_style name data section =
  Ok (dict_update String.eqb data style_misc_data,
      section ++ style_line name data).
Proof.
  intros (fg & bg & [align [[MarginL MarginR] MarginV]] & ->).
  reflexivity.
Qed.

Lemma write_event_shape name data section :
  event_shape data ->
  write_event name data section =
  Ok (dict_update String.eqb data event_misc_data,
      section ++ event_line name data).
Proof.
  intros (txt & t1 & t2 & ->).
  reflexivity.
Qed.

Lemma for_items_write_style items : forall section,
  Forall (fun kv => style_shape (snd kv)) items ->
  for_items write_style items section =
  Ok (with_misc style_misc_data items,
      section ++ section_of style_line items).
Proof.
  induction items as [ | [name data] items IH]; intros section Hall; cbn.
  - rewrite append_empty_r; reflexivity.
  - inversion Hall; subst; cbn [snd] in *.
    rewrite write_style_shape by assumption; cbn [bind].
    rewrite IH by assumption; cbn [bind].
    rewrite append_assoc; reflexivity.
Qed.

Lemma for_items_write_event items : forall section,
  Forall (fun kv => event_shape (snd kv)) items ->
  for_items write_event items section =
  Ok (with_misc event_misc_data items,
      section ++ section_of event_line items).
Proof.
  induction items as [ | [name data] items IH]; intros section Hall; cbn.
  - rewrite append_empty_r; reflexivity.
  - inversion Hall; subst; cbn [snd] in *.
    rewrite write_event_shape by assumption; cbn [bind].
    rewrite IH by assumption; cbn [bind].
    rewrite append_assoc; reflexivity.
Qed.

Lemma keys_with_misc misc d : keys (with_misc misc d) = keys d.
Proof. unfold keys, with_misc; rewrite map_map; reflexivity. Qed.

(** On consistent collections the conversion raises nothing: it appends
    one line per entry to each section and adds the fixed fields to the
    entries. *)
Lemma convert_consistent self :
  consistent self ->
  _convert_to_ass self =
  Ok {| width := width self; height := height self; xml := xml self;
        events := with_misc event_misc_data (events self);
        styles := with_misc style_misc_data (styles self);
        Script_Info := Script_Info self;
        V4_Styles := V4_Styles self ++ section_of style_line (styles self);
        Events := Events self ++ section_of event_line (events self) |}.
Proof.
  intros (Hk & Hnd & He & Hs).
  unfold _convert_to_ass, _write_styles, _write_events.
  rewrite for_items_write_style by exact Hs; cbn [bind].
  destruct self; cbn in *.
  rewrite for_items_write_event by exact He; reflexivity.
Qed.

(** * The claims about the parse step *)

Lemma parse_xml_inv tree parsed stdout :
  _parse_xml (new tree) = (Ok parsed, stdout) ->
  exists annotations,
    find tree "annotations" = Some annotations /\
    parsed = after (new tree) (findall annotations "annotation") /\
    stdout = diagnostics (new tree) (findall annotations "annotation").
Proof.
  unfold _parse_xml; cbn [xml new].
  destruct (find tree "annotations") as [annotations | ]; [ | discriminate].
  intros Hp; apply parse_loop_inv in Hp; destruct Hp as [-> ->].
  exists annotations; auto.
Qed.

Lemma init_parsed tree parsed stdout :
  _parse_xml (new tree) = (Ok parsed, stdout) ->
  __init__ tree =
  (Ok {| width := 100; height := 100; xml := tree;
         events := with_misc event_misc_data (events parsed);
         styles := with_misc style_misc_data (styles parsed);
         Script_Info := Script_Info_header;
         V4_Styles := V4_Styles_header ++ section_of style_line (styles parsed);
         Events := Events_header ++ section_of event_line (events parsed) |},
   stdout).
Proof.
  intros Hp; unfold __init__; rewrite Hp; cbn [bind].
  destruct (parse_xml_inv _ _ _ Hp) as (annotations & _ & -> & _).
  rewrite convert_consistent
    by (apply after_consistent, new_consistent).
  reflexivity.
Qed.

Lemma parsed_keys tree parsed stdout :
  _parse_xml (new tree) = (Ok parsed, stdout) ->
  keys (events parsed) = keys (styles parsed) /\
  NoDup (keys (events parsed)).
Proof.
  intros Hp.
  destruct (parse_xml_inv _ _ _ Hp) as (annotations & _ & -> & _).
  destruct (after_consistent (new tree) (findall annotations "annotation")
              (new_consistent tree)) as (Hk & Hnd & _).
  auto.
Qed.

(** C6: after the parse, the events and the styles have the same keys,
    each once; the conversion then succeeds and writes one Style line per
    entry of the styles and one Dialogue line per entry of the events, so
    the style names of the Dialogue lines are the names of the Style
    lines. *)
Theorem events_styles_same_keys tree parsed stdout :
  _parse_xml (new tree) = (Ok parsed, stdout) ->
  keys (events parsed) = keys (styles parsed) /\
  NoDup (keys (events parsed)) /\
  exists self,
    __init__ tree = (Ok self, stdout) /\
    V4_Styles self =
      V4_Styles_header ++ section_of style_line (styles parsed) /\
    Events self =
      Events_header ++ section_of event_line (events parsed) /\
    keys (events self) = keys (styles self).
Proof.
  intros Hp.
  destruct (parsed_keys _ _ _ Hp) as (Hk & Hnd).
  split; [exact Hk | split; [exact Hnd | ]].
  eexists; split; [apply init_parsed; exact Hp | ].
  cbn [V4_Styles Events events styles].
  rewrite !keys_with_misc; auto.
Qed.

(** the example document, parsed and converted *)
Lemma events_styles_same_keys_witness :
  exists parsed stdout,
    _parse_xml (new (sample_document [sample_a1 "hello"])) =
      (Ok parsed, stdout) /\
    keys (events parsed) = keys (styles parsed) /\
    NoDup (keys (events parsed)) /\
    exists self,
      __init__ (sample_document [sample_a1 "hello"]) = (Ok self, stdout) /\
      V4_Styles self =
        V4_Styles_header ++ section_of style_line (styles parsed) /\
      Events self =
        Events_header ++ section_of event_line (events parsed) /\
      keys (events self) = keys (styles self).
Proof.
  eexists; eexists.
  assert (Hp : _parse_xml (new (sample_document [sample_a1 "hello"])) =
               (Ok (after (new (sample_document [sample_a1 "hello"]))
                      [sample_a1 "hello"]), [])) by (vm_compute; reflexivity).
  split; [exact Hp | ].
  exact (events_styles_same_keys _ _ _ Hp).
Defined.

(** C10: of the annotations that are stored under one id, the last one
    processed is the one that the events and the styles hold; no key occurs
    twice, and the sections get one Style line and one Dialogue line per
    key. *)
Theorem duplicate_ids_last_wins tree annotations parsed stdout :
  find tree "annotations" = Some annotations ->
  _parse_xml (new tree) = (Ok parsed, stdout) ->
  (forall ant_id,
     dict_get key_eqb (events parsed) ant_id =
       last_of ant_id
         (stored_events (new tree) (findall annotations "annotation")) /\
     dict_get key_eqb (styles parsed) ant_id =
       last_of ant_id
         (stored_styles (new tree) (findall annotations "annotation"))) /\
  NoDup (keys (events parsed)) /\ NoDup (keys (styles parsed)) /\
  exists self,
    __init__ tree = (Ok self, stdout) /\
    V4_Styles self =
      V4_Styles_header ++ section_of style_line (styles parsed) /\
    Events self =
      Events_header ++ section_of event_line (events parsed).
Proof.
  intros Hfind Hp.
  destruct (parsed_keys _ _ _ Hp) as (Hk & Hnd).
  pose proof (init_parsed _ _ _ Hp) as Hinit.
  destruct (parse_xml_inv _ _ _ Hp) as (annotations' & Hfind' & Hafter & _).
  rewrite Hfind in Hfind'; injection Hfind' as <-.
  repeat split.
  - subst parsed; cbn [events after set_events set_styles new].
    rewrite (dict_get_update key_eqb key_eqb_eq); unfold last_of.
    destruct (dict_get key_eqb (rev _) ant_id); reflexivity.
  - subst parsed; cbn [styles after set_events set_styles new].
    rewrite (dict_get_update key_eqb key_eqb_eq); unfold last_of.
    destruct (dict_get key_eqb (rev _) ant_id); reflexivity.
  - exact Hnd.
  - rewrite <- Hk; exact Hnd.
  - eexists; split; [exact Hinit | split; reflexivity].
Qed.

(** two annotations with the id "a1": the second one is kept *)
Lemma duplicate_ids_last_wins_witness :
  exists parsed stdout,
    find (sample_document sample_twice) "annotations" =
      Some (sample_annotations sample_twice) /\
    _parse_xml (new (sample_document sample_twice)) = (Ok parsed, stdout) /\
    dict_get key_eqb (events parsed) (Some "a1") =
      Some (event_of "second" "3000" "4000") /\
    keys (events parsed) = [Some "a1"] /\
    NoDup (keys (styles parsed)).
Proof.
  eexists; eexists.
  assert (Hf : find (sample_document sample_twice) "annotations" =
               Some (sample_annotations sample_twice)) by reflexivity.
  assert (Hp : _parse_xml (new (sample_document sample_twice)) =
               (Ok (after (new (sample_document sample_twice)) sample_twice),
                [])) by (vm_compute; reflexivity).
  pose proof (duplicate_ids_last_wins _ _ _ _ Hf Hp) as (Hget & _ & Hnd & _).
  split; [exact Hf | split; [exact Hp | ]].
  split; [ | split; [vm_compute; reflexivity | exact Hnd]].
  rewrite (proj1 (Hget (Some "a1"))); vm_compute; reflexivity.
Defined.

(** What is printed does not steer the loop. *)
Lemma parse_loop_stdout l : forall self stdout stdout',
  fst (parse_loop l self stdout) = fst (parse_loop l self stdout').
Proof.
  induction l as [ | each l IH]; intros self stdout stdout'; cbn;
    [reflexivity | ].
  destruct (loop_body self each) as [[msg | ant_id event style] | e];
    [apply IH | apply IH | reflexivity].
Qed.

(** C8 fails on the code: the loop means to skip a non-text annotation
    (it prints a diagnostic and continues), but the diagnostic is put
    together as a string plus the [id], and for an annotation without an
    [id] attribute that is a string plus [None].  The parse aborts with a
    [TypeError] and the text annotation after it is not stored, whereas
    without the non-text annotation the parse stores it. *)
Lemma non_text_without_id_aborts :
  fst (_parse_xml
         (new (sample_document [sample_highlight_no_id; sample_a1 "hello"])))
    = Raise TypeError /\
  exists parsed,
    fst (_parse_xml (new (sample_document [sample_a1 "hello"]))) = Ok parsed /\
    keys (events parsed) = [Some "a1"].
Proof.
  split; [vm_compute; reflexivity | ].
  eexists; split; vm_compute; reflexivity.
Qed.

(** What the skip does when there is an [id] to print: the annotation
    gets its diagnostic and stores nothing, and from any state of the loop
    the parse of a list of annotations with it ends as the parse of the
    list without it does, with the same events and styles or the same
    exception. *)
Theorem non_text_annotation_skipped self before each rest stdout ant_id :
  is_str (get each "type") "text" = false ->
  get each "id" = Some ant_id ->
  loop_body self each =
    Ok (Continue ("Skipping non-text annotation with id: " ++ ant_id)) /\
  fst (parse_loop (before ++ each :: rest) self stdout) =
  fst (parse_loop (before ++ rest) self stdout).
Proof.
  intros Htype Hid.
  assert (Hb : forall self', loop_body self' each =
            Ok (Continue ("Skipping non-text annotation with id: " ++ ant_id))).
  { intros self'; unfold loop_body; rewrite Htype, Hid; reflexivity. }
  split; [apply Hb | ].
  revert self stdout; induction before as [ | a before IH]; intros self stdout.
  - cbn [app parse_loop]; rewrite Hb; apply parse_loop_stdout.
  - cbn [app parse_loop].
    destruct (loop_body self a) as [[msg | k event style] | e];
      [apply IH | apply IH | reflexivity].
Qed.

(** a highlight between two text annotations *)
Lemma non_text_annotation_skipped_witness :
  is_str (get sample_highlight "type") "text" = false /\
  get sample_highlight "id" = Some "h1" /\
  loop_body (new (sample_document [])) sample_highlight =
    Ok (Continue "Skipping non-text annotation with id: h1") /\
  fst (parse_loop ([sample_a1 "one"] ++ sample_highlight :: [sample_9_10])
         (new (sample_document [])) []) =
  fst (parse_loop ([sample_a1 "one"] ++ [sample_9_10])
         (new (sample_document [])) []).
Proof.
  split; [reflexivity | split; [reflexivity | ]].
  exact (non_text_annotation_skipped (new (sample_document []))
           [sample_a1 "one"] sample_highlight [sample_9_10] [] "h1"
           eq_refl eq_refl).
Defined.

(** C7: an annotation that is stored has at least two boxes, its start is
    the lexicographic minimum and its end the lexicographic maximum of the
    [t] attributes of the first two, so the start is at most the end in
    string order; no other box is read for the times. *)
Theorem times_are_string_min_max self each ant_id event style :
  loop_body self each = Ok (Update ant_id event style) ->
  exists segment moving_region box0 box1 rest s0 s1,
    find each "segment" = Some segment /\
    find segment "movingRegion" = Some moving_region /\
    region_boxes moving_region = box0 :: box1 :: rest /\
    get box0 "t" = Some s0 /\ get box1 "t" = Some s1 /\
    dict_get String.eqb event "Start" = Some (VStr (str_min s0 s1)) /\
    dict_get String.eqb event "End" = Some (VStr (str_max s0 s1)) /\
    String.leb (str_min s0 s1) (str_max s0 s1) = true.
Proof.
  intros Hb; apply loop_body_Update in Hb.
  destruct Hb as (T & txt & sg & mr & b0 & b1 & r & s0 & s1 & x & y & w & h
                  & Hb).
  decompose [and] Hb; subst.
  exists sg, mr, b0, b1, r, s0, s1.
  repeat (split; [assumption || reflexivity | ]).
  apply str_min_le_max.
Qed.

(** times "9" and "10": the start is "10" and the end "9", in string
    order, and the third box, with "5", does not count *)
Lemma times_are_string_min_max_witness :
  exists event style,
    loop_body (new (sample_document [])) sample_9_10 =
      Ok (Update (Some "a2") event style) /\
    dict_get String.eqb event "Start" = Some (VStr "10") /\
    dict_get String.eqb event "End" = Some (VStr "9") /\
    exists segment moving_region box0 box1 rest s0 s1,
      find sample_9_10 "segment" = Some segment /\
      find segment "movingRegion" = Some moving_region /\
      region_boxes moving_region = box0 :: box1 :: rest /\
      get box0 "t" = Some s0 /\ get box1 "t" = Some s1 /\
      dict_get String.eqb event "Start" = Some (VStr (str_min s0 s1)) /\
      dict_get String.eqb event "End" = Some (VStr (str_max s0 s1)) /\
      String.leb (str_min s0 s1) (str_max s0 s1) = true.
Proof.
  eexists; eexists.
  assert (Hb : loop_body (new (sample_document [])) sample_9_10 =
               Ok (Update (Some "a2") (event_of "late" "10" "9")
                     (style_of (VStr "1") (VStr "0")
                        (_get_pos 100 100 f0 f0 f20 f10))))
    by (vm_compute; reflexivity).
  split; [exact Hb | split; [reflexivity | split; [reflexivity | ]]].
  exact (times_are_string_min_max _ _ _ _ _ Hb).
Defined.

(** C9: the colours "1" and "0" are used when the annotation has no
    [appearance] child, and only then; with an [appearance] the colours are
    what its [fgColor] and [bgColor] attributes give, [None] for one that
    is missing, and [None] is written into the Style line as it is. *)
Theorem colours_default_without_appearance
        self each ant_id event style section :
  loop_body self each = Ok (Update ant_id event style) ->
  exists fg bg,
    dict_get String.eqb style "PrimaryColour" = Some fg /\
    dict_get String.eqb style "BackColour" = Some bg /\
    (find each "appearance" = None -> fg = VStr "1" /\ bg = VStr "0") /\
    (forall appearance, find each "appearance" = Some appearance ->
       fg = of_attr (get appearance "fgColor") /\
       bg = of_attr (get appearance "bgColor") /\
       (get appearance "fgColor" = None -> fg = VNone /\ str fg = "None") /\
       (get appearance "bgColor" = None -> bg = VNone /\ str bg = "None")) /\
    exists data' tail,
      write_style ant_id style section =
      Ok (data',
          section ++ "Style: " ++ str (of_attr ant_id) ++ ",Arial,4.5," ++
          str fg ++ "," ++ str fg ++ "," ++ str fg ++ "," ++ str bg ++
          ",0,0,1,0.1,0.2," ++ tail).
Proof.
  intros Hb; apply loop_body_Update in Hb.
  destruct Hb as (T & txt & sg & mr & b0 & b1 & r & s0 & s1 & x & y & w & h
                  & Hb).
  decompose [and] Hb; subst; clear Hb.
  exists (fst (colours each)), (snd (colours each)).
  destruct (_get_pos (width self) (height self) x y w h)
    as [align [[MarginL MarginR] MarginV]].
  split; [reflexivity | split; [reflexivity | ]].
  unfold colours; split; [ | split].
  - intros ->; auto.
  - intros appearance ->; cbn [fst snd].
    split; [reflexivity | split; [reflexivity | ]].
    split; intros Hn; rewrite Hn; split; reflexivity.
  - eexists; eexists; reflexivity.
Qed.

(** an [appearance] without colours: both are [None] *)
Lemma colours_default_without_appearance_witness :
  exists event style,
    loop_body (new (sample_document [])) sample_plain_appearance =
      Ok (Update (Some "a3") event style) /\
    exists fg bg,
      dict_get String.eqb style "PrimaryColour" = Some fg /\
      dict_get String.eqb style "BackColour" = Some bg /\
      (find sample_plain_appearance "appearance" = None ->
       fg = VStr "1" /\ bg = VStr "0") /\
      (forall appearance,
         find sample_plain_appearance "appearance" = Some appearance ->
         fg = of_attr (get appearance "fgColor") /\
         bg = of_attr (get appearance "bgColor") /\
         (get appearance "fgColor" = None -> fg = VNone /\ str fg = "None") /\
         (get appearance "bgColor" = None -> bg = VNone /\ str bg = "None")) /\
      exists data' tail,
        write_style (Some "a3") style "" =
        Ok (data',
            "" ++ "Style: " ++ str (of_attr (Some "a3")) ++ ",Arial,4.5," ++
            str fg ++ "," ++ str fg ++ "," ++ str fg ++ "," ++ str bg ++
            ",0,0,1,0.1,0.2," ++ tail).
Proof.
  eexists; eexists.
  assert (Hb : loop_body (new (sample_document [])) sample_plain_appearance =
               Ok (Update (Some "a3") (event_of "plain" "1000" "2000")
                     (style_of VNone VNone
                        (_get_pos 100 100 f0 f0 f20 f10))))
    by (vm_compute; reflexivity).
  split; [exact Hb | ].
  exact (colours_default_without_appearance _ _ _ _ _ "" Hb).
Defined.

(** ** Anomalous and valid annotations *)

Lemma min_max_cases (a b : string) :
  (str_min a b = a /\ str_max a b = b) \/ (str_min a b = b /\ str_max a b = a).
Proof. unfold str_min, str_max; destruct (String.leb a b); auto. Qed.

Lemma eqb_false_iff (a b : string) : String.eqb a b = false <-> a <> b.
Proof.
  destruct (String.eqb_spec a b); split; congruence.
Qed.

Lemma anomaly_Continue each msg self :
  anomaly each msg -> loop_body self each = Ok (Continue msg).
Proof.
  intros [ant_id Htype Hid | ant_id Htype HT Hid
          | T txt sg mr Htype HT Htxt Hsg Hmr Hbox
          | T txt sg mr b0 b1 r s0 s1 Htype HT Htxt Hsg Hmr Hbox H0 H1 Hn];
    unfold loop_body.
  - rewrite Htype, Hid; reflexivity.
  - rewrite Htype, HT, Hid; reflexivity.
  - rewrite Htype, HT, Htxt, Hsg; cbn [negb encode method bind].
    rewrite Hmr; cbn [method bind]; cbv zeta.
    change (match findall mr "rectRegion" with
            | [] => findall mr "anchoredRegion"
            | _ :: _ => findall mr "rectRegion"
            end) with (region_boxes mr).
    rewrite Hbox; reflexivity.
  - rewrite Htype, HT, Htxt, Hsg; cbn [negb encode method bind].
    rewrite Hmr; cbn [method bind]; cbv zeta.
    change (match findall mr "rectRegion" with
            | [] => findall mr "anchoredRegion"
            | _ :: _ => findall mr "rectRegion"
            end) with (region_boxes mr).
    rewrite Hbox; cbn [index nth_error bind].
    rewrite H0, H1, py_min_str, py_max_str; cbn [bind is_str].
    assert (Hor : (String.eqb (str_min s0 s1) "never"
                   || String.eqb (str_max s0 s1) "never")%bool = true).
    { apply orb_true_iff.
      destruct (min_max_cases s0 s1) as [[-> ->] | [-> ->]];
        destruct Hn as [-> | ->]; auto. }
    rewrite Hor; reflexivity.
Qed.

Lemma valid_Update each self :
  valid each ->
  exists event style,
    loop_body self each = Ok (Update (get each "id") event style).
Proof.
  intros [T txt sg mr b0 b1 r s0 s1 x y w h
            Htype HT Htxt Hsg Hmr Hbox H0 H1 Hn0 Hn1 Hx Hy Hw Hh].
  eexists; eexists.
  apply (loop_body_valid self each T txt sg mr b0 b1 r s0 s1 x y w h);
    try assumption.
  - apply eqb_false_iff.
    destruct (min_max_cases s0 s1) as [[-> _] | [-> _]]; assumption.
  - apply eqb_false_iff.
    destruct (min_max_cases s0 s1) as [[_ ->] | [_ ->]]; assumption.
Qed.

Lemma In_keys_dict_update {V : Type} (d other : dict key V) k :
  In k (keys other) -> In k (keys (dict_update key_eqb d other)).
Proof.
  intros Hin.
  destruct (dict_get key_eqb (dict_update key_eqb d other) k) eqn:E.
  - exact (dict_get_Some_In key_eqb key_eqb_eq _ _ _ E).
  - rewrite (dict_get_update key_eqb key_eqb_eq) in E.
    destruct (dict_get key_eqb (rev other) k) eqn:E'; [discriminate | ].
    apply (dict_get_None key_eqb key_eqb_eq) in E'.
    exfalso; apply E'; unfold keys; rewrite map_rev, <- in_rev; exact Hin.
Qed.

Lemma In_diagnostics self l each msg :
  In each l -> loop_body self each = Ok (Continue msg) ->
  In msg (diagnostics self l).
Proof.
  intros Hin Hb; unfold diagnostics; apply in_flat_map.
  exists each; split; [exact Hin | rewrite Hb; left; reflexivity].
Qed.

Lemma In_updates self l each ant_id event style :
  In each l -> loop_body self each = Ok (Update ant_id event style) ->
  In (ant_id, (event, style)) (updates self l).
Proof.
  intros Hin Hb; unfold updates; apply in_flat_map.
  exists each; split; [exact Hin | rewrite Hb; left; reflexivity].
Qed.

(** C3, as stated, fails: a text annotation without region data, here
    without a [segment] child, aborts the parse of a well-formed document
    with an [AttributeError], and one with a single box aborts it with an
    [IndexError]; the annotation after it is never reached. *)
Lemma missing_region_data_aborts :
  find (sample_document [sample_no_segment; sample_a1 "hello"]) "annotations"
    = Some (sample_annotations [sample_no_segment; sample_a1 "hello"]) /\
  _parse_xml (new (sample_document [sample_no_segment; sample_a1 "hello"]))
    = (Raise AttributeError, []) /\
  _parse_xml (new (sample_document [sample_one_box; sample_a1 "hello"]))
    = (Raise IndexError, []).
Proof.
  repeat split; vm_compute; reflexivity.
Qed.

(** C3, amended: on a document with an [annotations] container in which
    every annotation is either valid or anomalous in one of the four ways
    the loop tests for (a type other than "text" or no [TEXT] child, with
    an [id] to print; a moving region without boxes; a time "never" on one
    of the first two boxes), the parse raises no exception: every anomalous
    annotation is skipped with its diagnostic, and every valid one is
    stored in the events and in the styles. *)
Theorem anomalies_are_skipped tree annotations :
  find tree "annotations" = Some annotations ->
  Forall (fun each => valid each \/ exists msg, anomaly each msg)
    (findall annotations "annotation") ->
  exists parsed stdout,
    _parse_xml (new tree) = (Ok parsed, stdout) /\
    (forall each msg,
       In each (findall annotations "annotation") -> anomaly each msg ->
       loop_body parsed each = Ok (Continue msg) /\ In msg stdout) /\
    (forall each,
       In each (findall annotations "annotation") -> valid each ->
       In (get each "id") (keys (events parsed)) /\
       In (get each "id") (keys (styles parsed))).
Proof.
  intros Hfind Hall.
  assert (Hpass : Forall (passes (new tree))
                    (findall annotations "annotation")).
  { revert Hall; apply Forall_impl; intros each [Hv | [msg Ha]].
    - destruct (valid_Update each (new tree) Hv) as (event & style & Hb).
      eexists; exact Hb.
    - eexists; apply anomaly_Continue; exact Ha. }
  exists (after (new tree) (findall annotations "annotation")),
         (diagnostics (new tree) (findall annotations "annotation")).
  split; [ | split].
  - unfold _parse_xml; cbn [xml new]; rewrite Hfind.
    rewrite (parse_loop_passes _ _ [] Hpass); reflexivity.
  - intros each msg Hin Ha; split.
    + apply anomaly_Continue; exact Ha.
    + apply (In_diagnostics _ _ each); [exact Hin | ].
      apply anomaly_Continue; exact Ha.
  - intros each Hin Hv.
    destruct (valid_Update each (new tree) Hv) as (event & style & Hb).
    pose proof (In_updates _ _ _ _ _ _ Hin Hb) as Hu.
    cbn [events styles after set_events set_styles new]; split.
    + apply In_keys_dict_update; unfold keys, stored_events.
      rewrite map_map; apply in_map_iff; eexists; split; [ | exact Hu].
      reflexivity.
    + apply In_keys_dict_update; unfold keys, stored_styles.
      rewrite map_map; apply in_map_iff; eexists; split; [ | exact Hu].
      reflexivity.
Qed.

Lemma sample_a1_valid txt : valid (sample_a1 txt).
Proof.
  eapply valid_annotation; try reflexivity; try discriminate;
    vm_compute; reflexivity.
Defined.

Lemma sample_mixed_classified :
  Forall (fun each => valid each \/ exists msg, anomaly each msg) sample_mixed.
Proof.
  unfold sample_mixed; repeat apply Forall_cons; [ | | | | | apply Forall_nil].
  - right; eexists; apply (non_text sample_highlight "h1"); reflexivity.
  - right; eexists; apply (no_TEXT sample_no_TEXT "c1"); reflexivity.
  - right; eexists; eapply no_boxes; reflexivity.
  - right; eexists; eapply never_shown; try reflexivity; left; reflexivity.
  - left; apply sample_a1_valid.
Defined.

Lemma anomalies_are_skipped_witness :
  find (sample_document sample_mixed) "annotations" =
    Some (sample_annotations sample_mixed) /\
  Forall (fun each => valid each \/ exists msg, anomaly each msg)
    (findall (sample_annotations sample_mixed) "annotation") /\
  exists parsed stdout,
    _parse_xml (new (sample_document sample_mixed)) = (Ok parsed, stdout) /\
    (forall each msg,
       In each (findall (sample_annotations sample_mixed) "annotation") ->
       anomaly each msg ->
       loop_body parsed each = Ok (Continue msg) /\ In msg stdout) /\
    (forall each,
       In each (findall (sample_annotations sample_mixed) "annotation") ->
       valid each ->
       In (get each "id") (keys (events parsed)) /\
       In (get each "id") (keys (styles parsed))).
Proof.
  split; [reflexivity | split; [exact sample_mixed_classified | ]].
  exact (anomalies_are_skipped (sample_document sample_mixed)
           (sample_annotations sample_mixed) eq_refl sample_mixed_classified).
Defined.

(** ** Lines *)

Lemma lines_nonempty (s : string) : lines s <> [].
Proof.
  induction s as [ | c s IH]; cbn; [discriminate | ].
  destruct (Ascii.eqb c LF); [discriminate | ].
  destruct (lines s); discriminate.
Qed.

Lemma lines_app_LF (a b : string) :
  lines (a ++ String LF b) = (lines a ++ lines b)%list.
Proof.
  induction a as [ | c a IH]; cbn; [reflexivity | ].
  destruct (Ascii.eqb c LF); rewrite IH; [reflexivity | ].
  pose proof (lines_nonempty a) as Hne.
  destruct (lines a); [contradiction | reflexivity].
Qed.

Lemma lines_no_LF (l : string) : contains LF l = false -> lines l = [l].
Proof.
  induction l as [ | c l IH]; [reflexivity | ].
  cbn [contains lines].
  destruct (Ascii.eqb_spec LF c) as [<- | Hne]; cbn [orb]; [discriminate | ].
  destruct (Ascii.eqb_spec c LF) as [-> | _]; [contradiction | ].
  intros H; rewrite (IH H); reflexivity.
Qed.

(** a line between two line feeds is a line of the text *)
Lemma has_line_intro (a l b : string) :
  contains LF l = false -> has_line (a ++ String LF (l ++ String LF b)) l.
Proof.
  intros Hl; unfold has_line.
  rewrite !lines_app_LF, (lines_no_LF l Hl).
  apply in_or_app; right; left; reflexivity.
Qed.

(** the lines of the two sections are lines of the file *)
Lemma has_line_save self l :
  has_line (V4_Styles self) l \/ has_line (Events self) l ->
  has_line (save self) l.
Proof.
  unfold has_line, save, nl; cbn [append].
  rewrite !lines_app_LF; intros [H | H];
    apply in_or_app; right; apply in_or_app; [left | right];
    [exact H | apply in_or_app; left; exact H].
Qed.

Lemma contains_append c (a b : string) :
  contains c (a ++ b) = (contains c a || contains c b)%bool.
Proof.
  induction a as [ | x a IH]; cbn; [reflexivity | ].
  rewrite IH, orb_assoc; reflexivity.
Qed.

(** A bytes literal has no line feed in it: the byte 10 is written as a
    backslash and an [n]. *)
Lemma escape_byte_no_LF quote c :
  quote = squote \/ quote = dquote ->
  contains LF (escape_byte quote c) = false.
Proof.
  intros [-> | ->]; destruct c as [[] [] [] [] [] [] [] []]; reflexivity.
Qed.

Lemma escape_bytes_no_LF quote b :
  quote = squote \/ quote = dquote ->
  contains LF (escape_bytes quote b) = false.
Proof.
  intros Hq; induction b as [ | c b IH]; cbn; [reflexivity | ].
  rewrite contains_append, IH, (escape_byte_no_LF quote c Hq); reflexivity.
Qed.

Lemma bytes_repr_no_LF b : contains LF (bytes_repr b) = false.
Proof.
  unfold bytes_repr.
  destruct (contains squote b && negb (contains dquote b))%bool; cbn;
    rewrite contains_append, escape_bytes_no_LF by auto; reflexivity.
Qed.

(** a header that ends in a line feed, followed by a single line *)
Lemma section_line_shape (h p r : string) :
  (h ++ String LF "") ++ (p ++ (r ++ String LF "")) ++ "" =
  h ++ String LF ((p ++ r) ++ String LF "").
Proof. rewrite append_empty_r, !append_assoc; reflexivity. Qed.

(** ** The end-to-end example *)

(** C1, as stated, fails: for the document of the example the file has no
    line with the margins written as the ints 0, 80 and 0, and no Dialogue
    line that ends in the text as it stands. *)
Lemma end_to_end_margins_are_not_ints :
  exists self,
    fst (__init__ (sample_document [sample_a1 "hello"])) = Ok self /\
    ~ has_line (save self)
        "Style: a1,Arial,4.5,1,1,1,0,0,0,1,0.1,0.2,7,0,80,0,0,0" /\
    ~ has_line (save self)
        "Dialogue: Marked=0,1000,2000,a1,Speaker,0,0,0,,hello".
Proof.
  eexists; split; [vm_compute; reflexivity | ].
  split; unfold has_line; vm_compute;
    intros H; repeat (destruct H as [H | H]; [discriminate H | ]); exact H.
Qed.

(** C1, amended: for a document whose only annotation is a valid text
    annotation with id "a1", box (0, 0, 20, 10), times "1000" and "2000"
    and no [appearance], the file has the Style line with alignment 7 and
    the margins written as the floats they are, 0.0, 80.0 and 0.0, and a
    Dialogue line with the times, the id and the fixed fields in their
    places, followed by the text field.  How the text is written in that
    field is left open. *)
Theorem end_to_end_example
        tree annotations each TEXT txt segment moving_region box0 box1 rest :
  find tree "annotations" = Some annotations ->
  findall annotations "annotation" = [each] ->
  get each "id" = Some "a1" -> get each "type" = Some "text" ->
  find each "TEXT" = Some TEXT -> text TEXT = Some txt ->
  find each "segment" = Some segment ->
  find segment "movingRegion" = Some moving_region ->
  region_boxes moving_region = box0 :: box1 :: rest ->
  get box0 "t" = Some "1000" -> get box1 "t" = Some "2000" ->
  py_float (get box0 "x") = Ok f0 -> py_float (get box0 "y") = Ok f0 ->
  py_float (get box0 "w") = Ok f20 -> py_float (get box0 "h") = Ok f10 ->
  find each "appearance" = None ->
  exists self stdout,
    __init__ tree = (Ok self, stdout) /\
    has_line (save self)
      "Style: a1,Arial,4.5,1,1,1,0,0,0,1,0.1,0.2,7,0.0,80.0,0.0,0,0" /\
    exists text_field,
      has_line (save self)
        ("Dialogue: Marked=0,1000,2000,a1,Speaker,0,0,0,," ++ text_field).
Proof.
  intros Hfind Hall Hid Htype HT Htxt Hsg Hmr Hbox Ht0 Ht1 Hx Hy Hw Hh Happ.
  assert (Hb : loop_body (new tree) each =
               Ok (Update (Some "a1") (event_of txt "1000" "2000")
                     (style_of (VStr "1") (VStr "0")
                        (_get_pos 100 100 f0 f0 f20 f10)))).
  { rewrite (loop_body_valid (new tree) each TEXT txt segment moving_region
               box0 box1 rest "1000" "2000" f0 f0 f20 f10);
      try assumption; try reflexivity.
    - rewrite Hid; unfold colours; rewrite Happ; reflexivity.
    - rewrite Htype; reflexivity. }
  assert (Hp : _parse_xml (new tree) =
               (Ok (after (new tree) [each]), diagnostics (new tree) [each])).
  { unfold _parse_xml; cbn [xml new]; rewrite Hfind, Hall.
    apply (parse_loop_passes [each] (new tree) []).
    constructor; [eexists; exact Hb | constructor]. }
  pose proof (init_parsed _ _ _ Hp) as Hinit.
  eexists; eexists; split; [exact Hinit | ].
  assert (Hu : updates (new tree) [each] =
               [(Some "a1", (event_of txt "1000" "2000",
                             style_of (VStr "1") (VStr "0")
                               (_get_pos 100 100 f0 f0 f20 f10)))]).
  { rewrite (updates_cons_Update _ _ _ _ _ _ Hb); reflexivity. }
  split; [ | exists (str (VBytes txt))]; apply has_line_save; [left | right];
    cbn [V4_Styles Events];
    cbn [events styles after set_events set_styles new];
    unfold stored_events, stored_styles; rewrite Hu.
  - unfold has_line; vm_compute; tauto.
  - cbn [map fst snd dict_update fold_left dict_set section_of].
    change Events_header
      with (("[Events]" ++ nl ++ "Format: Marked, Start, End, Style, Name, " ++
             "MarginL, MarginR, MarginV, Effect, Text") ++ String LF "").
    change (event_line (Some "a1") (event_of txt "1000" "2000"))
      with ("Dialogue: Marked=0,1000,2000,a1,Speaker,0,0,0,," ++
            (bytes_repr txt ++ String LF "")).
    rewrite section_line_shape; apply has_line_intro.
    change (str (VBytes txt)) with (bytes_repr txt).
    rewrite contains_append, bytes_repr_no_LF; reflexivity.
Qed.

Lemma end_to_end_example_witness :
  exists self stdout,
    __init__ (sample_document [sample_a1 "hello"]) = (Ok self, stdout) /\
    has_line (save self)
      "Style: a1,Arial,4.5,1,1,1,0,0,0,1,0.1,0.2,7,0.0,80.0,0.0,0,0" /\
    exists text_field,
      has_line (save self)
        ("Dialogue: Marked=0,1000,2000,a1,Speaker,0,0,0,," ++ text_field).
Proof.
  apply (end_to_end_example (sample_document [sample_a1 "hello"])
           (sample_annotations [sample_a1 "hello"]) (sample_a1 "hello")
           (mkElement "TEXT" [] (Some "hello") []) "hello"
           (mkElement "segment" [] None
              [sample_moving_region
                 [sample_box "1000" "0" "0" "20" "10";
                  sample_box "2000" "0" "0" "20" "10"]])
           (sample_moving_region
              [sample_box "1000" "0" "0" "20" "10";
               sample_box "2000" "0" "0" "20" "10"])
           (sample_box "1000" "0" "0" "20" "10")
           (sample_box "2000" "0" "0" "20" "10") []);
    vm_compute; reflexivity.
Defined.

(** * Further properties *)

(** ** The position mapper in exact arithmetic *)

Lemma Qlt_int_iff (a : Q) (n : Z) : Qlt_int a n = true <-> (a < inject_Z n)%Q.
Proof.
  unfold Qlt_int; rewrite Qlt_alt.
  destruct (a ?= inject_Z n)%Q; split; congruence.
Qed.

Lemma Qgt_int_iff (a : Q) (n : Z) : Qgt_int a n = true <-> (inject_Z n < a)%Q.
Proof.
  unfold Qgt_int; rewrite Qgt_alt.
  destruct (a ?= inject_Z n)%Q; split; congruence.
Qed.

Lemma Qmid_iff (a : Q) (n : Z) :
  Qlt_int a n = false /\ Qgt_int a n = false <-> (a == inject_Z n)%Q.
Proof.
  unfold Qlt_int, Qgt_int; rewrite Qeq_alt.
  destruct (a ?= inject_Z n)%Q; intuition congruence.
Qed.

(** X1: a box that lies within the canvas gets margins that are not
    negative. *)
Theorem get_pos_margins_nonnegative (canvasWidth canvasHeight : Z)
        (x y w h : Q) :
  (0 <= x)%Q -> (x + w <= inject_Z canvasWidth)%Q ->
  (0 <= y)%Q -> (y + h <= inject_Z canvasHeight)%Q ->
  let '(_, (marginLeft, marginRight, marginVertical)) :=
    _get_pos canvasWidth canvasHeight x y w h in
  (0 <= marginLeft)%Q /\ (0 <= marginRight)%Q /\
  (0 <= margin_Q marginVertical)%Q.
Proof.
  intros Hx Hxw Hy Hyh.
  unfold _get_pos; cbn [lt_int gt_int Number_Q sub rsub_int].
  destruct (Qlt_int y (canvasHeight / 2)), (Qgt_int y (canvasHeight / 2)),
    (Qlt_int x (canvasWidth / 2)), (Qgt_int x (canvasWidth / 2));
    cbn [margin_Q]; repeat split; try lra; discriminate.
Qed.

Lemma get_pos_margins_nonnegative_witness :
  (0 <= 60 # 1)%Q /\ ((60 # 1) + (40 # 1) <= inject_Z 100)%Q /\
  (0 <= 70 # 1)%Q /\ ((70 # 1) + (25 # 2) <= inject_Z 100)%Q /\
  let '(_, (marginLeft, marginRight, marginVertical)) :=
    _get_pos 100 100 (60 # 1)%Q (70 # 1)%Q (40 # 1)%Q (25 # 2)%Q in
  (0 <= marginLeft)%Q /\ (0 <= marginRight)%Q /\
  (0 <= margin_Q marginVertical)%Q.
Proof.
  assert (H1 : (0 <= 60 # 1)%Q) by discriminate.
  assert (H2 : ((60 # 1) + (40 # 1) <= inject_Z 100)%Q) by discriminate.
  assert (H3 : (0 <= 70 # 1)%Q) by discriminate.
  assert (H4 : ((70 # 1) + (25 # 2) <= inject_Z 100)%Q) by discriminate.
  split; [exact H1 | split; [exact H2 | split; [exact H3 | split; [exact H4 | ]]]].
  exact (get_pos_margins_nonnegative 100 100 (60 # 1) (70 # 1) (40 # 1)
           (25 # 2) H1 H2 H3 H4).
Defined.

(** X2: nothing is clamped.  The left margin is negative exactly when the
    box starts left of the canvas, the right margin exactly when the box
    ends right of it, and in the bottom band the vertical margin exactly
    when the box ends below it. *)
Theorem get_pos_no_clamping (canvasWidth canvasHeight : Z) (x y w h : Q) :
  let '(_, (marginLeft, marginRight, marginVertical)) :=
    _get_pos canvasWidth canvasHeight x y w h in
  ((marginLeft < 0)%Q <-> (x < 0)%Q) /\
  ((marginRight < 0)%Q <-> (inject_Z canvasWidth < x + w)%Q) /\
  ((inject_Z (canvasHeight / 2) < y)%Q ->
   ((margin_Q marginVertical < 0)%Q <-> (inject_Z canvasHeight < y + h)%Q)).
Proof.
  unfold _get_pos; cbn [lt_int gt_int Number_Q sub rsub_int].
  destruct (Qlt_int y (canvasHeight / 2)) eqn:Hlt;
    [apply Qlt_int_iff in Hlt | ];
    (destruct (Qgt_int y (canvasHeight / 2)) eqn:Hgt;
     [ | assert (Hng : ~ (inject_Z (canvasHeight / 2) < y)%Q)
           by (rewrite <- Qgt_int_iff; congruence)]);
    destruct (Qlt_int x (canvasWidth / 2)), (Qgt_int x (canvasWidth / 2));
    cbn [margin_Q]; repeat split; intros; try lra; try contradiction.
Qed.

(** X3: the alignment tells the band and the column, on any canvas: the
    row 7, 8, 9 is returned exactly when [y] is below the integer midpoint
    [canvasHeight // 2], the row 1, 2, 3 exactly when it is above, the row
    4, 5, 6 exactly when it is equal, and likewise for the columns and
    [x]. *)
Theorem get_pos_alignment_decodes (canvasWidth canvasHeight : Z)
        (x y w h : Q) :
  let alignment := fst (_get_pos canvasWidth canvasHeight x y w h) in
  (In alignment [7; 8; 9] <-> (y < inject_Z (canvasHeight / 2))%Q) /\
  (In alignment [1; 2; 3] <-> (inject_Z (canvasHeight / 2) < y)%Q) /\
  (In alignment [4; 5; 6] <-> (y == inject_Z (canvasHeight / 2))%Q) /\
  (In alignment [7; 4; 1] <-> (x < inject_Z (canvasWidth / 2))%Q) /\
  (In alignment [9; 6; 3] <-> (inject_Z (canvasWidth / 2) < x)%Q) /\
  (In alignment [8; 5; 2] <-> (x == inject_Z (canvasWidth / 2))%Q).
Proof.
  unfold _get_pos; cbn [lt_int gt_int Number_Q sub rsub_int].
  rewrite <- !Qlt_int_iff, <- !Qgt_int_iff, <- !Qmid_iff.
  assert (Hy : Qlt_int y (canvasHeight / 2) = true ->
               Qgt_int y (canvasHeight / 2) = false).
  { rewrite Qlt_int_iff; intros Hl.
    destruct (Qgt_int y (canvasHeight / 2)) eqn:E; [ | reflexivity].
    apply Qgt_int_iff in E; lra. }
  assert (Hx : Qlt_int x (canvasWidth / 2) = true ->
               Qgt_int x (canvasWidth / 2) = false).
  { rewrite Qlt_int_iff; intros Hl.
    destruct (Qgt_int x (canvasWidth / 2)) eqn:E; [ | reflexivity].
    apply Qgt_int_iff in E; lra. }
  destruct (Qlt_int y (canvasHeight / 2)), (Qgt_int y (canvasHeight / 2)),
    (Qlt_int x (canvasWidth / 2)), (Qgt_int x (canvasWidth / 2));
    try (specialize (Hy eq_refl); discriminate Hy);
    try (specialize (Hx eq_refl); discriminate Hx);
    cbn [fst In]; intuition (discriminate || lia).
Qed.

(** X4: the midpoint is the floored half.  On a canvas of odd height a
    box whose corner is at the true half height is in the bottom band, not
    in the middle one. *)
Theorem get_pos_odd_canvas (canvasWidth canvasHeight : Z) (x y w h : Q) :
  Z.odd canvasHeight = true ->
  (y == inject_Z canvasHeight / 2)%Q ->
  In (fst (_get_pos canvasWidth canvasHeight x y w h)) [1; 2; 3].
Proof.
  intros Hodd Hy.
  assert (Hgt : Qgt_int y (canvasHeight / 2) = true).
  { apply Qgt_int_iff; rewrite Hy.
    pose proof (Z.div_mod canvasHeight 2 ltac:(lia)) as Hdm.
    assert (Hm : canvasHeight mod 2 = 1).
    { rewrite Zmod_odd, Hodd; reflexivity. }
    rewrite Hm in Hdm; rewrite Hdm at 2.
    generalize (canvasHeight / 2); intros q.
    unfold Qlt, Qdiv, Qmult, Qinv, inject_Z; cbn [Qnum Qden].
    lia. }
  assert (Hlt : Qlt_int y (canvasHeight / 2) = false).
  { destruct (Qlt_int y (canvasHeight / 2)) eqn:E; [ | reflexivity].
    apply Qlt_int_iff in E; apply Qgt_int_iff in Hgt; lra. }
  unfold _get_pos; cbn [lt_int gt_int Number_Q sub rsub_int].
  rewrite Hlt, Hgt.
  destruct (Qlt_int x (canvasWidth / 2)), (Qgt_int x (canvasWidth / 2));
    cbn; auto.
Qed.

Lemma get_pos_odd_canvas_witness :
  Z.odd 101 = true /\ ((101 # 2) == inject_Z 101 / 2)%Q /\
  In (fst (_get_pos 100 101 (10 # 1)%Q (101 # 2)%Q (5 # 1)%Q (5 # 1)%Q))
     [1; 2; 3].
Proof.
  assert (Hy : ((101 # 2) == inject_Z 101 / 2)%Q) by reflexivity.
  split; [reflexivity | split; [exact Hy | ]].
  exact (get_pos_odd_canvas 100 101 (10 # 1) (101 # 2) (5 # 1) (5 # 1)
           eq_refl Hy).
Defined.

(** ** The position mapper on floats that are not numbers *)




(** ** Every annotation is valid, anomalous or malformed *)

Lemma malformed_Raise each e self :
  malformed each e -> loop_body self each = Raise e.
Proof.
  assert (Hboxes : forall mr,
            (let box := findall mr "rectRegion" in
             match box with
             | [] => findall mr "anchoredRegion"
             | _ :: _ => box
             end) = region_boxes mr) by reflexivity.
  intros [[Htype | HT] Hid | T Htype HT Htxt
          | (Htype & T & txt & HT & Htxt) Hsg
          | sg (Htype & T & txt & HT & Htxt) Hsg Hmr
          | mr b0 (Htype & T & txt & HT & Htxt) (sg & Hsg & Hmr) Hbox
          | mr b0 b1 r (Htype & T & txt & HT & Htxt) (sg & Hsg & Hmr) Hbox Ht
          | mr b0 b1 r s0 s1 e' (Htype & T & txt & HT & Htxt) (sg & Hsg & Hmr)
              Hbox Ht0 Ht1 Hn0 Hn1 Hbad];
    unfold loop_body.
  - rewrite Htype, Hid; reflexivity.
  - destruct (is_str (get each "type") "text"); cbn [negb];
      rewrite ?HT, Hid; reflexivity.
  - rewrite Htype, HT, Htxt; reflexivity.
  - rewrite Htype, HT, Htxt, Hsg; reflexivity.
  - rewrite Htype, HT, Htxt, Hsg; cbn [negb encode method bind].
    rewrite Hmr; reflexivity.
  - rewrite Htype, HT, Htxt, Hsg; cbn [negb encode method bind].
    rewrite Hmr; cbn [method bind]; rewrite Hboxes, Hbox; reflexivity.
  - rewrite Htype, HT, Htxt, Hsg; cbn [negb encode method bind].
    rewrite Hmr; cbn [method bind]; rewrite Hboxes, Hbox.
    cbn [index nth_error bind].
    destruct Ht as [-> | ->];
      [destruct (get b1 "t") | destruct (get b0 "t")]; reflexivity.
  - rewrite Htype, HT, Htxt, Hsg; cbn [negb encode method bind].
    rewrite Hmr; cbn [method bind]; rewrite Hboxes, Hbox.
    cbn [index nth_error bind].
    rewrite Ht0, Ht1, py_min_str, py_max_str; cbn [bind is_str].
    assert (Hm0 : String.eqb (str_min s0 s1) "never" = false).
    { apply eqb_false_iff.
      destruct (min_max_cases s0 s1) as [[-> _] | [-> _]]; assumption. }
    assert (Hm1 : String.eqb (str_max s0 s1) "never" = false).
    { apply eqb_false_iff.
      destruct (min_max_cases s0 s1) as [[_ ->] | [_ ->]]; assumption. }
    rewrite Hm0, Hm1; cbn [orb].
    cbn [first_bad] in Hbad.
    destruct (py_float (get b0 "x")); cbn [bind]; [ | congruence].
    destruct (py_float (get b0 "y")); cbn [bind]; [ | congruence].
    destruct (py_float (get b0 "w")); cbn [bind]; [ | congruence].
    destruct (py_float (get b0 "h")); cbn [bind]; [discriminate | congruence].
Qed.

(** the three kinds leave nothing out *)
Lemma classified each :
  valid each \/ (exists msg, anomaly each msg) \/ (exists e, malformed each e).
Proof.
  destruct (is_str (get each "type") "text") eqn:Htype.
  2: { right; destruct (get each "id") as [ant_id | ] eqn:Hid.
       - left; eexists; apply (non_text each ant_id); assumption.
       - right; eexists; apply skipped_without_id; auto. }
  destruct (find each "TEXT") as [T | ] eqn:HT.
  2: { right; destruct (get each "id") as [ant_id | ] eqn:Hid.
       - left; eexists; apply (no_TEXT each ant_id); assumption.
       - right; eexists; apply skipped_without_id; auto. }
  destruct (text T) as [txt | ] eqn:Htxt.
  2: { right; right; eexists; eapply empty_TEXT; eassumption. }
  assert (Htext : has_text each) by (split; [assumption | eauto]).
  destruct (find each "segment") as [sg | ] eqn:Hsg.
  2: { right; right; eexists; apply no_segment; assumption. }
  destruct (find sg "movingRegion") as [mr | ] eqn:Hmr.
  2: { right; right; eexists; eapply no_moving_region; eassumption. }
  assert (Hregion : has_region each mr) by (exists sg; auto).
  destruct (region_boxes mr) as [ | b0 [ | b1 r]] eqn:Hbox.
  - right; left; eexists; eapply no_boxes; eassumption.
  - right; right; eexists; eapply single_box; eassumption.
  - destruct (get b0 "t") as [s0 | ] eqn:Ht0.
    2: { right; right; eexists; eapply no_time; eauto. }
    destruct (get b1 "t") as [s1 | ] eqn:Ht1.
    2: { right; right; eexists; eapply no_time; eauto. }
    destruct (String.eqb_spec s0 "never") as [Hn0 | Hn0].
    { right; left; eexists; eapply never_shown; eauto. }
    destruct (String.eqb_spec s1 "never") as [Hn1 | Hn1].
    { right; left; eexists; eapply never_shown; eauto. }
    destruct (first_bad [get b0 "x"; get b0 "y"; get b0 "w"; get b0 "h"])
      as [e | ] eqn:Hbad.
    { right; right; exists e; eapply bad_number; eauto. }
    left; cbn [first_bad] in Hbad.
    destruct (py_float (get b0 "x")) as [x | ] eqn:Hx; [ | discriminate].
    destruct (py_float (get b0 "y")) as [y | ] eqn:Hy; [ | discriminate].
    destruct (py_float (get b0 "w")) as [w | ] eqn:Hw; [ | discriminate].
    destruct (py_float (get b0 "h")) as [h | ] eqn:Hh; [ | discriminate].
    eapply valid_annotation; eauto.
Qed.

Lemma loop_body_Raise_malformed self each e :
  loop_body self each = Raise e -> malformed each e.
Proof.
  intros Hb.
  destruct (classified each) as [Hv | [[msg Ha] | [e' Hm]]].
  - destruct (valid_Update each self Hv) as (ev & st & Hu); congruence.
  - rewrite (anomaly_Continue each msg self Ha) in Hb; discriminate.
  - rewrite (malformed_Raise each e' self Hm) in Hb; congruence.
Qed.

Lemma loop_body_Continue_anomaly self each msg :
  loop_body self each = Ok (Continue msg) -> anomaly each msg.
Proof.
  intros Hb.
  destruct (classified each) as [Hv | [[msg' Ha] | [e' Hm]]].
  - destruct (valid_Update each self Hv) as (ev & st & Hu); congruence.
  - rewrite (anomaly_Continue each msg' self Ha) in Hb.
    injection Hb as <-; exact Ha.
  - rewrite (malformed_Raise each e' self Hm) in Hb; discriminate.
Qed.

Lemma loop_body_Update_valid self each ant_id event style :
  loop_body self each = Ok (Update ant_id event style) -> valid each.
Proof.
  intros Hb.
  destruct (classified each) as [Hv | [[msg' Ha] | [e' Hm]]].
  - exact Hv.
  - rewrite (anomaly_Continue each msg' self Ha) in Hb; discriminate.
  - rewrite (malformed_Raise each e' self Hm) in Hb; discriminate.
Qed.

Lemma passes_iff self each :
  passes self each <-> valid each \/ exists msg, anomaly each msg.
Proof.
  split.
  - intros [[msg | ant_id event style] Hb].
    + right; exists msg; eapply loop_body_Continue_anomaly; exact Hb.
    + left; eapply loop_body_Update_valid; exact Hb.
  - intros [Hv | [msg Ha]].
    + destruct (valid_Update each self Hv) as (ev & st & Hu).
      eexists; exact Hu.
    + eexists; apply anomaly_Continue; exact Ha.
Qed.

(** X6: what a round of the loop does is decided by the kind of the
    annotation alone.  It raises [e] exactly for a malformed annotation
    with exception [e], it prints [msg] and goes on exactly for an anomalous
    one with diagnostic [msg], and it stores an entry under the
    annotation's id exactly for a valid one. *)
Theorem loop_body_kinds self each :
  (forall e, loop_body self each = Raise e <-> malformed each e) /\
  (forall msg, loop_body self each = Ok (Continue msg) <-> anomaly each msg) /\
  ((exists event style,
      loop_body self each = Ok (Update (get each "id") event style))
   <-> valid each).
Proof.
  split; [ | split].
  - intros e; split;
      [apply loop_body_Raise_malformed | intros H; apply malformed_Raise, H].
  - intros msg; split;
      [apply loop_body_Continue_anomaly | intros H; apply anomaly_Continue, H].
  - split.
    + intros (event & style & Hb); eapply loop_body_Update_valid; exact Hb.
    + apply valid_Update.
Qed.

(** X7: the exceptions of a round are four: [KeyError] is never raised,
    and a [ValueError] only comes from a coordinate of the first box that
    is there but is no number. *)
Theorem loop_body_exceptions self each e :
  loop_body self each = Raise e ->
  e <> KeyError /\
  (e = ValueError ->
   exists moving_region box0 rest name s,
     has_region each moving_region /\
     region_boxes moving_region = box0 :: rest /\
     In name ["x"; "y"; "w"; "h"] /\
     get box0 name = Some s /\ float_of_string s = None).
Proof.
  intros Hb; apply loop_body_Raise_malformed in Hb.
  destruct Hb as [ | | | | | | mr b0 b1 r s0 s1 e Htext Hregion Hbox _ _ _ _ Hbad];
    try (split; [discriminate | discriminate]).
  assert (Hone : forall name rest_attrs,
            match py_float (get b0 name) with
            | Ok _ => first_bad rest_attrs
            | Raise e' => Some e'
            end = Some e ->
            (e <> KeyError /\
             (e = ValueError ->
              exists s, get b0 name = Some s /\ float_of_string s = None)) \/
            first_bad rest_attrs = Some e).
  { intros name rest_attrs; unfold py_float.
    destruct (get b0 name) as [s | ].
    - destruct (float_of_string s) eqn:Hf; [auto | ].
      intros [= <-]; left; split; [discriminate | eauto].
    - intros [= <-]; left; split; [discriminate | discriminate]. }
  cbn [first_bad] in Hbad.
  assert (Hfinish : forall name,
            In name ["x"; "y"; "w"; "h"] ->
            e <> KeyError /\
            (e = ValueError ->
             exists s, get b0 name = Some s /\ float_of_string s = None) ->
            e <> KeyError /\
            (e = ValueError ->
             exists moving_region box0 rest name s,
               has_region each moving_region /\
               region_boxes moving_region = box0 :: rest /\
               In name ["x"; "y"; "w"; "h"] /\
               get box0 name = Some s /\ float_of_string s = None)).
  { intros name Hin [Hk Hv]; split; [exact Hk | ].
    intros He; destruct (Hv He) as (s & Hg & Hf).
    exists mr, b0, (b1 :: r), name, s; auto. }
  destruct (Hone "x" [get b0 "y"; get b0 "w"; get b0 "h"] Hbad)
    as [H | Hbad1];
    [apply (Hfinish "x"); cbn; auto | ].
  destruct (Hone "y" [get b0 "w"; get b0 "h"] Hbad1) as [H | Hbad2];
    [apply (Hfinish "y"); cbn; auto | ].
  destruct (Hone "w" [get b0 "h"] Hbad2) as [H | Hbad3];
    [apply (Hfinish "w"); cbn; auto | ].
  destruct (Hone "h" [] Hbad3) as [H | Hbad4];
    [apply (Hfinish "h"); cbn; auto 6 | discriminate].
Qed.

Lemma loop_body_exceptions_witness :
  loop_body (new (sample_document [])) sample_bad_number = Raise ValueError /\
  ValueError <> KeyError /\
  (ValueError = ValueError ->
   exists moving_region box0 rest name s,
     has_region sample_bad_number moving_region /\
     region_boxes moving_region = box0 :: rest /\
     In name ["x"; "y"; "w"; "h"] /\
     get box0 name = Some s /\ float_of_string s = None).
Proof.
  assert (Hb : loop_body (new (sample_document [])) sample_bad_number =
               Raise ValueError) by (vm_compute; reflexivity).
  split; [exact Hb | ].
  exact (loop_body_exceptions _ _ _ Hb).
Defined.

(** [float] reads the decimal digits of every script and skips every
    Unicode space, so a box placed in such numbers is valid and is stored
    like any other. *)
Lemma other_scripts_are_numbers :
  float_of_string arabic_12 = Some (float_of_int 12) /\
  float_of_string nbsp_12 = Some (float_of_int 12) /\
  valid sample_other_script /\
  exists self,
    __init__ (sample_document [sample_other_script]) = (Ok self, []) /\
    has_line (save self)
      "Style: e1,Arial,4.5,1,1,1,0,0,0,1,0.1,0.2,7,12.0,76.0,0.0,0,0".
Proof.
  split; [vm_compute; reflexivity | split; [vm_compute; reflexivity | ]].
  split.
  - eapply (valid_annotation sample_other_script);
      try (vm_compute; reflexivity); discriminate.
  - eexists; split; [vm_compute; reflexivity | ].
    unfold has_line; vm_compute; tauto.
Qed.

(** ** The parse of a whole document *)

Lemma after_canvas self l :
  width (after self l) = width self /\ height (after self l) = height self.
Proof. split; reflexivity. Qed.

Lemma parse_loop_app before : forall l self stdout,
  Forall (passes self) before ->
  parse_loop (before ++ l) self stdout =
  parse_loop l (after self before) (stdout ++ diagnostics self before)%list.
Proof.
  induction before as [ | a before IH]; intros l self stdout Hall.
  - cbn [app]; rewrite after_nil; cbn; rewrite app_nil_r; reflexivity.
  - inversion Hall as [ | ? ? [s Hs] Hrest]; subst.
    cbn [app parse_loop]; rewrite Hs.
    destruct s as [msg | ant_id event style].
    + rewrite IH by exact Hrest.
      rewrite (after_Continue self a before msg Hs).
      rewrite (diagnostics_cons_Continue self a before msg Hs).
      rewrite <- app_assoc; reflexivity.
    + rewrite IH.
      * rewrite (after_Update self a before _ _ _ Hs).
        rewrite (diagnostics_canvas (set_styles (set_events self _) _) self
                   before eq_refl eq_refl).
        rewrite (diagnostics_cons_Update self a before _ _ _ Hs); reflexivity.
      * revert Hrest; apply Forall_impl; intros b [s Hb]; exists s.
        rewrite <- Hb; apply loop_body_canvas; reflexivity.
Qed.

Lemma Forall_passes self l :
  Forall (passes self) l <->
  Forall (fun each => valid each \/ exists msg, anomaly each msg) l.
Proof.
  split; apply Forall_impl; intros a; apply passes_iff.
Qed.

(** X8: the parse of a document raises nothing exactly when the document
    has an [annotations] container and each of its annotations is valid or
    anomalous. *)
Theorem parse_xml_succeeds_iff tree :
  (exists parsed stdout, _parse_xml (new tree) = (Ok parsed, stdout)) <->
  (exists annotations,
     find tree "annotations" = Some annotations /\
     Forall (fun each => valid each \/ exists msg, anomaly each msg)
       (findall annotations "annotation")).
Proof.
  unfold _parse_xml; cbn [xml new]; split.
  - intros (parsed & stdout & Hp).
    destruct (find tree "annotations") as [annotations | ]; [ | discriminate].
    exists annotations; split; [reflexivity | ].
    apply (Forall_passes (new tree)).
    exact (parse_loop_Ok _ _ _ _ _ Hp).
  - intros (annotations & -> & Hall).
    apply (Forall_passes (new tree)) in Hall.
    rewrite (parse_loop_passes _ _ [] Hall); eauto.
Qed.

(** X9: the first malformed annotation ends the construction with its
    exception.  The annotations before it have been processed, and the
    diagnostics of the skipped ones among them have been printed; the
    annotations after it do not matter. *)
Theorem init_first_malformed tree annotations before each rest e :
  find tree "annotations" = Some annotations ->
  findall annotations "annotation" = (before ++ each :: rest)%list ->
  Forall (fun a => valid a \/ exists msg, anomaly a msg) before ->
  malformed each e ->
  __init__ tree = (Raise e, diagnostics (new tree) before).
Proof.
  intros Hfind Hl Hbefore Hm.
  apply (Forall_passes (new tree)) in Hbefore.
  unfold __init__, _parse_xml; cbn [xml new]; rewrite Hfind, Hl.
  rewrite (parse_loop_app before _ (new tree) [] Hbefore).
  cbn [parse_loop app].
  rewrite (malformed_Raise each e _ Hm); reflexivity.
Qed.

Lemma sample_9_10_valid : valid sample_9_10.
Proof.
  eapply valid_annotation; try reflexivity; try discriminate;
    vm_compute; reflexivity.
Defined.

Lemma sample_one_box_malformed : malformed sample_one_box IndexError.
Proof.
  apply (single_box sample_one_box
           (sample_moving_region [sample_box "1000" "0" "0" "20" "10"])
           (sample_box "1000" "0" "0" "20" "10")).
  - split; [reflexivity | eexists; eexists; split; reflexivity].
  - eexists; split; reflexivity.
  - reflexivity.
Defined.

Lemma sample_broken_before :
  Forall (fun a => valid a \/ exists msg, anomaly a msg)
    [sample_highlight; sample_a1 "hello"; sample_never].
Proof.
  repeat apply Forall_cons; [ | | | apply Forall_nil].
  - right; eexists; apply (non_text sample_highlight "h1"); reflexivity.
  - left; apply sample_a1_valid.
  - right; eexists; eapply never_shown; try reflexivity; left; reflexivity.
Defined.

(** a highlight, a valid annotation and a hidden one, then an annotation
    with a single box: two diagnostics and an [IndexError] *)
Lemma init_first_malformed_witness :
  find (sample_document sample_broken) "annotations" =
    Some (sample_annotations sample_broken) /\
  findall (sample_annotations sample_broken) "annotation" =
    ([sample_highlight; sample_a1 "hello"; sample_never] ++
     sample_one_box :: [sample_9_10])%list /\
  malformed sample_one_box IndexError /\
  __init__ (sample_document sample_broken) =
    (Raise IndexError,
     diagnostics (new (sample_document sample_broken))
       [sample_highlight; sample_a1 "hello"; sample_never]).
Proof.
  split; [reflexivity | split; [reflexivity | ]].
  split; [exact sample_one_box_malformed | ].
  exact (init_first_malformed (sample_document sample_broken)
           (sample_annotations sample_broken)
           [sample_highlight; sample_a1 "hello"; sample_never]
           sample_one_box [sample_9_10] IndexError
           eq_refl eq_refl sample_broken_before sample_one_box_malformed).
Defined.

Lemma length_keys_dict_update {V : Type} (other : dict key V) : forall d,
  (List.length (keys (dict_update key_eqb d other)) <=
   List.length (keys d) + List.length other)%nat.
Proof.
  induction other as [ | [k v] other IH]; intros d; cbn [List.length].
  - unfold dict_update; cbn [fold_left]; lia.
  - change (dict_update key_eqb d ((k, v) :: other))
      with (dict_update key_eqb (dict_set key_eqb d k v) other).
    specialize (IH (dict_set key_eqb d k v)).
    rewrite keys_dict_set in IH.
    destruct (dict_get key_eqb d k); [lia | ].
    rewrite length_app in IH; cbn in IH; lia.
Qed.

Lemma passes_accounted self l :
  Forall (passes self) l ->
  (List.length (diagnostics self l) + List.length (updates self l) = List.length l)%nat.
Proof.
  induction l as [ | each l IH]; intros Hall; [reflexivity | ].
  inversion Hall as [ | ? ? [s Hs] Hrest]; subst.
  specialize (IH Hrest).
  destruct s as [msg | ant_id event style].
  - rewrite (diagnostics_cons_Continue self each l msg Hs).
    rewrite (updates_cons_Continue self each l msg Hs); cbn [List.length]; lia.
  - rewrite (diagnostics_cons_Update self each l _ _ _ Hs).
    rewrite (updates_cons_Update self each l _ _ _ Hs); cbn [List.length]; lia.
Qed.

(** X10: when the parse succeeds every annotation is accounted for once:
    the diagnostics printed and the entries stored are together as many as
    the annotations, and the collections have at most as many keys as
    entries were stored. *)
Theorem parse_xml_accounts tree annotations parsed stdout :
  find tree "annotations" = Some annotations ->
  _parse_xml (new tree) = (Ok parsed, stdout) ->
  (List.length stdout +
   List.length (updates (new tree) (findall annotations "annotation")) =
   List.length (findall annotations "annotation"))%nat /\
  (List.length (keys (events parsed)) <=
   List.length (updates (new tree) (findall annotations "annotation")))%nat /\
  List.length (keys (styles parsed)) = List.length (keys (events parsed)).
Proof.
  intros Hfind Hp.
  destruct (parsed_keys _ _ _ Hp) as (Hk & _).
  unfold _parse_xml in Hp; cbn [xml new] in Hp; rewrite Hfind in Hp.
  pose proof (parse_loop_Ok _ _ _ _ _ Hp) as Hall.
  apply parse_loop_inv in Hp; destruct Hp as [-> ->].
  split; [ | split].
  - cbn [app]; apply passes_accounted; exact Hall.
  - cbn [events after set_events set_styles new].
    pose proof (length_keys_dict_update
                  (stored_events (new tree)
                     (findall annotations "annotation")) []) as Hle.
    unfold stored_events in Hle at 2; rewrite length_map in Hle.
    cbn [keys map List.length] in Hle; exact Hle.
  - rewrite Hk; reflexivity.
Qed.

Lemma parse_xml_accounts_witness :
  exists parsed stdout,
    find (sample_document sample_mixed) "annotations" =
      Some (sample_annotations sample_mixed) /\
    _parse_xml (new (sample_document sample_mixed)) = (Ok parsed, stdout) /\
    List.length stdout = 4%nat /\
    (List.length stdout +
     List.length (updates (new (sample_document sample_mixed))
               (findall (sample_annotations sample_mixed) "annotation")) =
     List.length (findall (sample_annotations sample_mixed) "annotation"))%nat /\
    (List.length (keys (events parsed)) <=
     List.length (updates (new (sample_document sample_mixed))
               (findall (sample_annotations sample_mixed) "annotation")))%nat /\
    List.length (keys (styles parsed)) = List.length (keys (events parsed)).
Proof.
  eexists; eexists.
  assert (Hp : _parse_xml (new (sample_document sample_mixed)) =
               (Ok (after (new (sample_document sample_mixed)) sample_mixed),
                diagnostics (new (sample_document sample_mixed)) sample_mixed))
    by (vm_compute; reflexivity).
  split; [reflexivity | split; [exact Hp | split; [reflexivity | ]]].
  exact (parse_xml_accounts (sample_document sample_mixed)
           (sample_annotations sample_mixed) _ _ eq_refl Hp).
Defined.

(** ** The order of the keys *)

Lemma dict_get_existsb {V : Type} (d : dict key V) k :
  existsb (key_eqb k) (keys d) =
  match dict_get key_eqb d k with Some _ => true | None => false end.
Proof.
  induction d as [ | [k0 v0] d IH]; cbn; [reflexivity | ].
  destruct (key_eqb k k0); [reflexivity | exact IH].
Qed.

Lemma filter_filter {A : Type} (P Q : A -> bool) (l : list A) :
  filter P (filter Q l) = filter (fun x => Q x && P x)%bool l.
Proof.
  induction l as [ | a l IH]; cbn; [reflexivity | ].
  destruct (Q a); cbn; [destruct (P a) | ]; rewrite IH; reflexivity.
Qed.

Lemma key_eqb_sym (a b : key) : key_eqb a b = key_eqb b a.
Proof.
  destruct (key_eqb a b) eqn:E.
  - apply key_eqb_eq in E; subst; symmetry; apply key_eqb_eq; reflexivity.
  - destruct (key_eqb b a) eqn:E'; [ | reflexivity].
    apply key_eqb_eq in E'; subst.
    rewrite (proj2 (key_eqb_eq a a) eq_refl) in E; discriminate.
Qed.

Lemma keys_dict_update_order {V : Type} (other : dict key V) : forall d,
  keys (dict_update key_eqb d other) =
  (keys d ++
   filter (fun k => negb (existsb (key_eqb k) (keys d)))
     (first_occurrences (keys other)))%list.
Proof.
  induction other as [ | [k v] other IH]; intros d.
  - cbn; rewrite app_nil_r; reflexivity.
  - change (dict_update key_eqb d ((k, v) :: other))
      with (dict_update key_eqb (dict_set key_eqb d k v) other).
    rewrite IH, keys_dict_set; cbn [keys map fst first_occurrences filter].
    rewrite dict_get_existsb.
    destruct (dict_get key_eqb d k) eqn:Hget; cbn [negb].
    + f_equal; rewrite filter_filter; apply filter_ext; intros x.
      rewrite dict_get_existsb.
      destruct (key_eqb x k) eqn:E; cbn; [ | reflexivity].
      apply key_eqb_eq in E; subst x; rewrite Hget; reflexivity.
    + rewrite <- app_assoc; cbn [app]; do 2 f_equal.
      rewrite filter_filter; apply filter_ext; intros x.
      rewrite existsb_app; cbn [existsb].
      rewrite orb_false_r, negb_orb, andb_comm; reflexivity.
Qed.

Lemma filter_true {A : Type} (l : list A) : filter (fun _ => true) l = l.
Proof. induction l as [ | a l IH]; cbn; [ | rewrite IH]; reflexivity. Qed.

(** X11: the keys of the events and of the styles are the ids of the
    stored annotations in the order in which each id is first stored; a
    later annotation with the same id keeps the place of the first. *)
Theorem parse_xml_key_order tree annotations parsed stdout :
  find tree "annotations" = Some annotations ->
  _parse_xml (new tree) = (Ok parsed, stdout) ->
  keys (events parsed) =
    first_occurrences
      (map fst (updates (new tree) (findall annotations "annotation"))) /\
  keys (styles parsed) = keys (events parsed).
Proof.
  intros Hfind Hp.
  destruct (parsed_keys _ _ _ Hp) as (Hk & _).
  split; [ | symmetry; exact Hk].
  unfold _parse_xml in Hp; cbn [xml new] in Hp; rewrite Hfind in Hp.
  apply parse_loop_inv in Hp; destruct Hp as [-> _].
  cbn [events after set_events set_styles new].
  rewrite keys_dict_update_order.
  change (keys (@nil (key * fields))) with (@nil key).
  cbn [app existsb negb]; rewrite filter_true.
  unfold keys at 1; unfold stored_events; rewrite map_map; reflexivity.
Qed.

Lemma parse_xml_key_order_witness :
  exists parsed stdout,
    find (sample_document sample_order) "annotations" =
      Some (sample_annotations sample_order) /\
    _parse_xml (new (sample_document sample_order)) = (Ok parsed, stdout) /\
    keys (events parsed) = [Some "a1"; Some "a2"] /\
    keys (events parsed) =
      first_occurrences
        (map fst (updates (new (sample_document sample_order))
                    (findall (sample_annotations sample_order)
                       "annotation"))) /\
    keys (styles parsed) = keys (events parsed).
Proof.
  eexists; eexists.
  assert (Hp : _parse_xml (new (sample_document sample_order)) =
               (Ok (after (new (sample_document sample_order)) sample_order),
                [])) by (vm_compute; reflexivity).
  split; [reflexivity | split; [exact Hp | ]].
  split; [vm_compute; reflexivity | ].
  exact (parse_xml_key_order (sample_document sample_order)
           (sample_annotations sample_order) _ _ eq_refl Hp).
Defined.

(** ** Documents without a valid annotation *)

Lemma updates_anomalies self l :
  Forall (fun each => exists msg, anomaly each msg) l ->
  updates self l = [] /\ List.length (diagnostics self l) = List.length l.
Proof.
  induction l as [ | each l IH]; intros Hall; [split; reflexivity | ].
  inversion Hall as [ | ? ? [msg Ha] Hrest]; subst.
  destruct (IH Hrest) as [Hu Hd].
  pose proof (anomaly_Continue each msg self Ha) as Hb.
  rewrite (updates_cons_Continue self each l msg Hb).
  rewrite (diagnostics_cons_Continue self each l msg Hb).
  cbn [List.length]; auto.
Qed.

(** X12: a document all of whose annotations are anomalous, or which has
    none, is converted to the three headers alone, with one diagnostic
    printed for each annotation. *)
Theorem init_all_skipped tree annotations :
  find tree "annotations" = Some annotations ->
  Forall (fun each => exists msg, anomaly each msg)
    (findall annotations "annotation") ->
  exists self stdout,
    __init__ tree = (Ok self, stdout) /\
    events self = [] /\ styles self = [] /\
    save self =
      Script_Info_header ++ nl ++ V4_Styles_header ++ nl ++
      Events_header ++ nl /\
    List.length stdout = List.length (findall annotations "annotation").
Proof.
  intros Hfind Hall.
  destruct (updates_anomalies (new tree) _ Hall) as [Hu Hd].
  assert (Hpass : Forall (passes (new tree))
                    (findall annotations "annotation")).
  { revert Hall; apply Forall_impl; intros each [msg Ha].
    eexists; apply anomaly_Continue; exact Ha. }
  assert (Hp : _parse_xml (new tree) =
               (Ok (after (new tree) (findall annotations "annotation")),
                diagnostics (new tree) (findall annotations "annotation"))).
  { unfold _parse_xml; cbn [xml new]; rewrite Hfind.
    apply (parse_loop_passes _ (new tree) [] Hpass). }
  eexists; eexists; split; [apply (init_parsed _ _ _ Hp) | ].
  unfold save; cbn [events styles Script_Info V4_Styles Events].
  cbn [events styles after set_events set_styles new].
  unfold stored_events, stored_styles; rewrite Hu.
  cbn [map dict_update fold_left with_misc section_of].
  rewrite !append_empty_r; auto.
Qed.

Lemma sample_skipped_anomalous :
  Forall (fun each => exists msg, anomaly each msg) sample_skipped.
Proof.
  repeat apply Forall_cons; [ | | | | apply Forall_nil].
  - eexists; apply (non_text sample_highlight "h1"); reflexivity.
  - eexists; apply (no_TEXT sample_no_TEXT "c1"); reflexivity.
  - eexists; eapply no_boxes; reflexivity.
  - eexists; eapply never_shown; try reflexivity; left; reflexivity.
Defined.

Lemma init_all_skipped_witness :
  find (sample_document sample_skipped) "annotations" =
    Some (sample_annotations sample_skipped) /\
  exists self stdout,
    __init__ (sample_document sample_skipped) = (Ok self, stdout) /\
    events self = [] /\ styles self = [] /\
    save self =
      Script_Info_header ++ nl ++ V4_Styles_header ++ nl ++
      Events_header ++ nl /\
    List.length stdout =
      List.length (findall (sample_annotations sample_skipped) "annotation").
Proof.
  split; [reflexivity | ].
  exact (init_all_skipped (sample_document sample_skipped)
           (sample_annotations sample_skipped) eq_refl
           sample_skipped_anomalous).
Defined.

(** X13: an anomalous annotation of any of the four kinds leaves no trace
    in the collections: from any state of the loop, a list of annotations
    with it ends as the list without it does. *)
Theorem anomaly_leaves_no_trace self before each rest stdout msg :
  anomaly each msg ->
  fst (parse_loop (before ++ each :: rest) self stdout) =
  fst (parse_loop (before ++ rest) self stdout).
Proof.
  intros Ha; revert self stdout.
  induction before as [ | a before IH]; intros self stdout.
  - cbn [app parse_loop].
    rewrite (anomaly_Continue each msg self Ha); apply parse_loop_stdout.
  - cbn [app parse_loop].
    destruct (loop_body self a) as [[m | k event style] | e];
      [apply IH | apply IH | reflexivity].
Qed.

Lemma sample_never_anomalous :
  anomaly sample_never "Found annotation that shouldn't be shown, skipping...".
Proof.
  eapply never_shown; try reflexivity; left; reflexivity.
Defined.

Lemma anomaly_leaves_no_trace_witness :
  anomaly sample_never
    "Found annotation that shouldn't be shown, skipping..." /\
  fst (parse_loop ([sample_a1 "one"] ++ sample_never :: [sample_9_10])
         (new (sample_document [])) []) =
  fst (parse_loop ([sample_a1 "one"] ++ [sample_9_10])
         (new (sample_document [])) []).
Proof.
  split; [exact sample_never_anomalous | ].
  exact (anomaly_leaves_no_trace (new (sample_document []))
           [sample_a1 "one"] sample_never [sample_9_10] [] _
           sample_never_anomalous).
Defined.

(** ** The conversion after the parse *)

Lemma malformed_not_KeyError each e : malformed each e -> e <> KeyError.
Proof.
  intros [ | | | | | | mr b0 b1 r s0 s1 e' _ _ _ _ _ _ _ Hbad];
    try discriminate.
  cbn [first_bad] in Hbad; unfold py_float in Hbad.
  repeat match type of Hbad with
         | context [match get ?b ?n with _ => _ end] => destruct (get b n)
         | context [match float_of_string ?s with _ => _ end] =>
             destruct (float_of_string s)
         end;
    try discriminate; injection Hbad as <-; discriminate.
Qed.

Lemma parse_loop_Raise l : forall self stdout e stdout',
  parse_loop l self stdout = (Raise e, stdout') ->
  exists each, In each l /\ malformed each e.
Proof.
  induction l as [ | each l IH]; intros self stdout e stdout' Hp;
    [discriminate | ].
  cbn [parse_loop] in Hp.
  destruct (loop_body self each) as [[msg | k event style] | e'] eqn:Hb.
  - destruct (IH _ _ _ _ Hp) as (a & Hin & Hm); exists a; cbn; auto.
  - destruct (IH _ _ _ _ Hp) as (a & Hin & Hm); exists a; cbn; auto.
  - injection Hp as <- _; exists each; split; [left; reflexivity | ].
    eapply loop_body_Raise_malformed; exact Hb.
Qed.

(** X14: the serialisers add no failure of their own.  The construction
    raises exactly the exception that the parse raises, if any, and never a
    [KeyError]. *)
Theorem init_raises_as_parse tree :
  (forall e,
     fst (__init__ tree) = Raise e <-> fst (_parse_xml (new tree)) = Raise e)
  /\ fst (__init__ tree) <> Raise KeyError.
Proof.
  destruct (_parse_xml (new tree)) as [[parsed | e'] stdout] eqn:Hp.
  - rewrite (init_parsed _ _ _ Hp); cbn [fst].
    split; [intros e; split; discriminate | discriminate].
  - assert (Hi : fst (__init__ tree) = Raise e')
      by (unfold __init__; rewrite Hp; reflexivity).
    rewrite Hi; cbn [fst]; split; [intros e; split; auto | ].
    intros [= ->].
    unfold _parse_xml in Hp; cbn [xml new] in Hp.
    destruct (find tree "annotations") as [annotations | ]; [ | discriminate].
    destruct (parse_loop_Raise _ _ _ _ _ Hp) as (each & _ & Hm).
    exact (malformed_not_KeyError each KeyError Hm eq_refl).
Qed.

(** an entry that has been written once is written alike again *)
Lemma write_style_again name data section :
  style_shape data ->
  write_style name (dict_update String.eqb data style_misc_data) section =
  Ok (dict_update String.eqb data style_misc_data,
      section ++ style_line name data).
Proof.
  intros (fg & bg & [align [[MarginL MarginR] MarginV]] & ->).
  reflexivity.
Qed.

Lemma write_event_again name data section :
  event_shape data ->
  write_event name (dict_update String.eqb data event_misc_data) section =
  Ok (dict_update String.eqb data event_misc_data,
      section ++ event_line name data).
Proof.
  intros (txt & t1 & t2 & ->).
  reflexivity.
Qed.

Lemma for_items_write_style_again items : forall section,
  Forall (fun kv => style_shape (snd kv)) items ->
  for_items write_style (with_misc style_misc_data items) section =
  Ok (with_misc style_misc_data items,
      section ++ section_of style_line items).
Proof.
  induction items as [ | [name data] items IH]; intros section Hall;
    unfold with_misc; cbn [map for_items fst snd section_of].
  - rewrite append_empty_r; reflexivity.
  - inversion Hall; subst; cbn [snd] in *.
    rewrite write_style_again by assumption; cbn [bind].
    unfold with_misc in IH; rewrite IH by assumption; cbn [bind].
    rewrite append_assoc; reflexivity.
Qed.

Lemma for_items_write_event_again items : forall section,
  Forall (fun kv => event_shape (snd kv)) items ->
  for_items write_event (with_misc event_misc_data items) section =
  Ok (with_misc event_misc_data items,
      section ++ section_of event_line items).
Proof.
  induction items as [ | [name data] items IH]; intros section Hall;
    unfold with_misc; cbn [map for_items fst snd section_of].
  - rewrite append_empty_r; reflexivity.
  - inversion Hall; subst; cbn [snd] in *.
    rewrite write_event_again by assumption; cbn [bind].
    unfold with_misc in IH; rewrite IH by assumption; cbn [bind].
    rewrite append_assoc; reflexivity.
Qed.

(** X15: the conversion is not idempotent on the text but it is on the
    collections.  Run again on the object that [__init__] built, it raises
    nothing, leaves the events and the styles as they are, and appends the
    same Style lines and the same Dialogue lines once more. *)
Theorem convert_again tree self stdout :
  __init__ tree = (Ok self, stdout) ->
  exists style_lines event_lines again,
    V4_Styles self = V4_Styles_header ++ style_lines /\
    Events self = Events_header ++ event_lines /\
    _convert_to_ass self = Ok again /\
    events again = events self /\ styles again = styles self /\
    V4_Styles again = V4_Styles_header ++ style_lines ++ style_lines /\
    Events again = Events_header ++ event_lines ++ event_lines.
Proof.
  intros Hi.
  destruct (_parse_xml (new tree)) as [[parsed | e'] out] eqn:Hp.
  2: { unfold __init__ in Hi; rewrite Hp in Hi; discriminate. }
  rewrite (init_parsed _ _ _ Hp) in Hi; injection Hi as <- _.
  destruct (parse_xml_inv _ _ _ Hp) as (annotations & _ & Hafter & _).
  destruct (after_consistent (new tree) (findall annotations "annotation")
              (new_consistent tree)) as (_ & _ & He & Hs).
  rewrite <- Hafter in He, Hs.
  exists (section_of style_line (styles parsed)),
         (section_of event_line (events parsed)).
  eexists; split; [reflexivity | split; [reflexivity | ]].
  unfold _convert_to_ass, _write_styles, _write_events.
  cbn [styles V4_Styles].
  rewrite for_items_write_style_again by exact Hs; cbn [bind].
  cbn [events Events set_styles set_V4_Styles].
  rewrite for_items_write_event_again by exact He; cbn [bind].
  split; [reflexivity | ].
  cbn [events styles V4_Styles Events set_events set_Events set_styles
       set_V4_Styles width height xml Script_Info].
  rewrite <- !append_assoc; auto.
Qed.

Lemma convert_again_witness :
  exists self stdout,
    __init__ (sample_document [sample_a1 "hello"]) = (Ok self, stdout) /\
    exists style_lines event_lines again,
      V4_Styles self = V4_Styles_header ++ style_lines /\
      Events self = Events_header ++ event_lines /\
      _convert_to_ass self = Ok again /\
      events again = events self /\ styles again = styles self /\
      V4_Styles again = V4_Styles_header ++ style_lines ++ style_lines /\
      Events again = Events_header ++ event_lines ++ event_lines.
Proof.
  eexists; eexists.
  assert (Hp : _parse_xml (new (sample_document [sample_a1 "hello"])) =
               (Ok (after (new (sample_document [sample_a1 "hello"]))
                      [sample_a1 "hello"]), [])) by (vm_compute; reflexivity).
  pose proof (init_parsed _ _ _ Hp) as Hi.
  split; [exact Hi | ].
  exact (convert_again _ _ _ Hi).
Defined.

(** ** The layout of the file *)

Lemma lines_save self :
  lines (save self) =
  (lines (Script_Info self) ++ lines (V4_Styles self) ++
   lines (Events self) ++ [""])%list.
Proof.
  unfold save, nl; cbn [append]; rewrite !lines_app_LF; reflexivity.
Qed.

(** the two lines of a section header, whatever follows them *)
Lemma lines_header (title format rest : string) :
  contains LF title = false -> contains LF format = false ->
  lines ((title ++ nl ++ format ++ nl) ++ rest) =
  (title :: format :: lines rest)%list.
Proof.
  intros Ht Hf; unfold nl.
  rewrite !append_assoc; cbn [append].
  rewrite lines_app_LF, (lines_no_LF title Ht).
  rewrite lines_app_LF, (lines_no_LF format Hf); reflexivity.
Qed.

Lemma init_sections tree self stdout :
  __init__ tree = (Ok self, stdout) ->
  exists parsed,
    Script_Info self = Script_Info_header /\
    V4_Styles self =
      V4_Styles_header ++ section_of style_line (styles parsed) /\
    Events self = Events_header ++ section_of event_line (events parsed).
Proof.
  intros Hi.
  destruct (_parse_xml (new tree)) as [[parsed | e'] out] eqn:Hp.
  2: { unfold __init__ in Hi; rewrite Hp in Hi; discriminate. }
  rewrite (init_parsed _ _ _ Hp) in Hi; injection Hi as <- _.
  exists parsed; repeat split; reflexivity.
Qed.

(** a section is empty or ends in a line feed *)
Lemma section_of_ends line (items : dict key fields) :
  (forall name data, exists body, line name data = body ++ nl) ->
  last (lines (section_of line items)) "!" = "".
Proof.
  intros Hline.
  assert (Hends : section_of line items = "" \/
                  exists a, section_of line items = a ++ String LF "").
  { induction items as [ | [name data] items IH]; [left; reflexivity | ].
    right; cbn [section_of].
    destruct (Hline name data) as (body & ->).
    destruct IH as [-> | (a & ->)].
    - exists body; rewrite append_empty_r; reflexivity.
    - exists ((body ++ nl) ++ a); rewrite !append_assoc; reflexivity. }
  destruct Hends as [-> | (a & ->)]; [reflexivity | ].
  rewrite lines_app_LF; cbn [lines]; apply last_last.
Qed.

(** X16: every file that is written has the layout of an ASS script: it
    starts with the four lines of the script information and an empty
    line, then come the title and the format line of the styles and, after
    the Style lines, an empty line, the title and the format line of the
    events and, after the Dialogue lines, two empty lines. *)
Theorem save_layout tree self stdout :
  __init__ tree = (Ok self, stdout) ->
  exists style_lines event_lines,
    lines (save self) =
    (["[Script Info]"; "ScriptType: V4.00+"; "PlayResX: 100";
      "PlayResY: 100"; "";
      "[V4 Styles]";
      ("Format: Name, Fontname, Fontsize, PrimaryColour, SecondaryColour, " ++
       "TertiaryColour, BackColour, Bold, Italic, BorderStyle, Outline, " ++
       "Shadow, Alignment, MarginL, MarginR, MarginV, AlphaLevel, Encoding"
      )%string] ++
     style_lines ++
     ["[Events]";
      ("Format: Marked, Start, End, Style, Name, MarginL, MarginR, MarginV, " ++
       "Effect, Text")%string] ++
     event_lines ++ [""])%list /\
    last style_lines "!" = "" /\ last event_lines "!" = "".
Proof.
  intros Hi.
  destruct (init_sections _ _ _ Hi) as (parsed & HS & HV & HE).
  rewrite lines_save, HS, HV, HE.
  exists (lines (section_of style_line (styles parsed))),
         (lines (section_of event_line (events parsed))).
  split.
  - change V4_Styles_header
      with ("[V4 Styles]" ++ nl ++
            ("Format: Name, Fontname, Fontsize, PrimaryColour, " ++
             "SecondaryColour, TertiaryColour, BackColour, Bold, Italic, " ++
             "BorderStyle, Outline, Shadow, Alignment, MarginL, MarginR, " ++
             "MarginV, AlphaLevel, Encoding") ++ nl).
    change Events_header
      with ("[Events]" ++ nl ++
            ("Format: Marked, Start, End, Style, Name, MarginL, MarginR, " ++
             "MarginV, Effect, Text") ++ nl).
    rewrite !lines_header by reflexivity.
    reflexivity.
  - split; apply section_of_ends; intros name data; eexists;
      [unfold style_line | unfold event_line];
      rewrite <- !append_assoc; reflexivity.
Qed.

Lemma save_layout_witness :
  exists self stdout,
    __init__ (sample_document [sample_a1 "hello"]) = (Ok self, stdout) /\
    exists style_lines event_lines,
      lines (save self) =
      (["[Script Info]"; "ScriptType: V4.00+"; "PlayResX: 100";
        "PlayResY: 100"; "";
        "[V4 Styles]";
        ("Format: Name, Fontname, Fontsize, PrimaryColour, " ++
         "SecondaryColour, TertiaryColour, BackColour, Bold, Italic, " ++
         "BorderStyle, Outline, Shadow, Alignment, MarginL, MarginR, " ++
         "MarginV, AlphaLevel, Encoding")%string] ++
       style_lines ++
       ["[Events]";
        ("Format: Marked, Start, End, Style, Name, MarginL, MarginR, " ++
         "MarginV, Effect, Text")%string] ++
       event_lines ++ [""])%list /\
      last style_lines "!" = "" /\ last event_lines "!" = "".
Proof.
  eexists; eexists.
  assert (Hp : _parse_xml (new (sample_document [sample_a1 "hello"])) =
               (Ok (after (new (sample_document [sample_a1 "hello"]))
                      [sample_a1 "hello"]), [])) by (vm_compute; reflexivity).
  pose proof (init_parsed _ _ _ Hp) as Hi.
  split; [exact Hi | ].
  exact (save_layout _ _ _ Hi).
Defined.

(** ** What every stored entry satisfies *)

Lemma get_pos_float_placed self_width self_height (x y w h : float) fg bg :
  style_placed (style_of fg bg (_get_pos self_width self_height x y w h)).
Proof.
  unfold _get_pos, style_placed; cbn [lt_int gt_int Number_float sub rsub_int].
  destruct (float_lt_int y (self_height / 2)),
    (float_gt_int y (self_height / 2)),
    (float_lt_int x (self_width / 2)), (float_gt_int x (self_width / 2));
    cbn [style_of margin_value]; eexists _, _, _, _, _, _;
    (split; [reflexivity | split; [lia | ]]);
    solve [ left; split; [cbn; auto 7 | reflexivity]
          | right; split; [cbn; auto 7 | eexists; reflexivity] ].
Qed.

Lemma updates_invariants self l :
  Forall (fun u => event_timed (fst (snd u)) /\ style_placed (snd (snd u)))
    (updates self l).
Proof.
  induction l as [ | each l IH]; [constructor | ].
  destruct (loop_body self each) as [[msg | ant_id event style] | e] eqn:Hb.
  - rewrite (updates_cons_Continue self each l msg Hb); exact IH.
  - rewrite (updates_cons_Update self each l _ _ _ Hb); constructor;
      [ | exact IH].
    apply loop_body_Update in Hb.
    destruct Hb as (T & txt & sg & mr & b0 & b1 & r & s0 & s1 & x & y & w & h
                    & Hb).
    decompose [and] Hb; subst; split; cbn [fst snd].
    + exists txt, (str_min s0 s1), (str_max s0 s1).
      split; [reflexivity | split; [apply str_min_le_max | ]].
      split; apply eqb_false_iff; assumption.
    + apply get_pos_float_placed.
  - rewrite (updates_cons_Raise self each l e Hb); exact IH.
Qed.

Lemma parsed_invariants tree parsed stdout :
  _parse_xml (new tree) = (Ok parsed, stdout) ->
  Forall (fun kv => event_timed (snd kv)) (events parsed) /\
  Forall (fun kv => style_placed (snd kv)) (styles parsed).
Proof.
  intros Hp.
  destruct (parse_xml_inv _ _ _ Hp) as (annotations & _ & -> & _).
  pose proof (updates_invariants (new tree)
                (findall annotations "annotation")) as Hu.
  cbn [events styles after set_events set_styles new]; split.
  - apply Forall_dict_update; [constructor | ].
    unfold stored_events; rewrite Forall_map.
    revert Hu; apply Forall_impl; cbn; tauto.
  - apply Forall_dict_update; [constructor | ].
    unfold stored_styles; rewrite Forall_map.
    revert Hu; apply Forall_impl; cbn; tauto.
Qed.

(** X17: every style that the parse stores has an int alignment from 1 to
    9 and float margins to the left and to the right; its vertical margin
    is the int 0 when the alignment is one of the middle band (4, 5, 6),
    and a float otherwise. *)
Theorem stored_styles_placed tree parsed stdout :
  _parse_xml (new tree) = (Ok parsed, stdout) ->
  Forall (fun kv => style_placed (snd kv)) (styles parsed).
Proof. intros Hp; exact (proj2 (parsed_invariants _ _ _ Hp)). Qed.

Lemma stored_styles_placed_witness :
  exists parsed stdout,
    _parse_xml (new (sample_document sample_mixed)) = (Ok parsed, stdout) /\
    keys (styles parsed) = [Some "a1"] /\
    Forall (fun kv => style_placed (snd kv)) (styles parsed).
Proof.
  eexists; eexists.
  assert (Hp : _parse_xml (new (sample_document sample_mixed)) =
               (Ok (after (new (sample_document sample_mixed)) sample_mixed),
                diagnostics (new (sample_document sample_mixed)) sample_mixed))
    by (vm_compute; reflexivity).
  split; [exact Hp | split; [vm_compute; reflexivity | ]].
  exact (stored_styles_placed _ _ _ Hp).
Defined.

(** X18: every event that the parse stores has a start that is at most
    its end in string order, and neither is "never": an annotation with
    such a time is in no collection. *)
Theorem stored_events_timed tree parsed stdout :
  _parse_xml (new tree) = (Ok parsed, stdout) ->
  Forall (fun kv => event_timed (snd kv)) (events parsed).
Proof. intros Hp; exact (proj1 (parsed_invariants _ _ _ Hp)). Qed.

Lemma stored_events_timed_witness :
  exists parsed stdout,
    _parse_xml (new (sample_document sample_mixed)) = (Ok parsed, stdout) /\
    keys (events parsed) = [Some "a1"] /\
    Forall (fun kv => event_timed (snd kv)) (events parsed).
Proof.
  eexists; eexists.
  assert (Hp : _parse_xml (new (sample_document sample_mixed)) =
               (Ok (after (new (sample_document sample_mixed)) sample_mixed),
                diagnostics (new (sample_document sample_mixed)) sample_mixed))
    by (vm_compute; reflexivity).
  split; [exact Hp | split; [vm_compute; reflexivity | ]].
  exact (stored_events_timed _ _ _ Hp).
Defined.

(** ** Renderings without a line feed *)

Lemma contains_LF_cons c s :
  contains LF (String c s) = (Ascii.eqb LF c || contains LF s)%bool.
Proof. reflexivity. Qed.

Lemma string_of_uint_no_LF d :
  contains LF (NilEmpty.string_of_uint d) = false.
Proof.
  induction d; cbn [NilEmpty.string_of_uint]; [reflexivity | ..];
    rewrite contains_LF_cons, IHd; reflexivity.
Qed.

Lemma str_int_no_LF n : contains LF (str_int n) = false.
Proof.
  unfold str_int, NilZero.string_of_int, NilZero.string_of_uint.
  destruct (Z.to_int n) as [d | d]; destruct d;
    try reflexivity;
    rewrite ?contains_LF_cons, string_of_uint_no_LF; reflexivity.
Qed.

Lemma substring_no_LF s : forall n m,
  contains LF s = false -> contains LF (substring n m s) = false.
Proof.
  induction s as [ | c s IH]; intros [ | n] [ | m] Hs; cbn [substring];
    try reflexivity; try exact Hs;
    rewrite contains_LF_cons in Hs; apply orb_false_iff in Hs;
    destruct Hs as [Hc Hs]; try (apply IH; exact Hs).
  rewrite contains_LF_cons, Hc, (IH 0%nat m Hs); reflexivity.
Qed.

Lemma contains_In c s :
  contains c s = true <-> In c (list_ascii_of_string s).
Proof.
  induction s as [ | x s IH]; cbn; [split; [discriminate | tauto] | ].
  rewrite orb_true_iff, IH.
  destruct (Ascii.eqb_spec c x); intuition congruence.
Qed.

Lemma strip_zeros_incl l c : In c (strip_zeros l) -> In c l.
Proof.
  induction l as [ | x l IH]; cbn [strip_zeros]; [tauto | ].
  destruct (Ascii.eqb_spec x "0"%char) as [-> | Hx].
  - intros H; right; apply IH; exact H.
  - destruct x as [[] [] [] [] [] [] [] []]; try (intros H; exact H);
      contradiction Hx; reflexivity.
Qed.

Lemma rstrip_zeros_no_LF s :
  contains LF s = false -> contains LF (rstrip_zeros s) = false.
Proof.
  intros Hs; destruct (contains LF (rstrip_zeros s)) eqn:E; [ | reflexivity].
  apply contains_In in E; unfold rstrip_zeros in E.
  rewrite list_ascii_of_string_of_list_ascii in E.
  apply in_rev, strip_zeros_incl in E; apply in_rev in E.
  apply contains_In in E; congruence.
Qed.

Lemma zeros_no_LF n : contains LF (zeros n) = false.
Proof. induction n as [ | n IH]; cbn; [reflexivity | exact IH]. Qed.

Lemma exp_str_no_LF x : contains LF (exp_str x) = false.
Proof.
  unfold exp_str; rewrite !contains_append, str_int_no_LF.
  destruct (x <? 0), (Z.abs x <? 10); reflexivity.
Qed.

Lemma repr_finite_no_LF m e : contains LF (repr_finite m e) = false.
Proof.
  unfold repr_finite.
  destruct (shortest m e) as [d n].
  pose proof (rstrip_zeros_no_LF (str_int d) (str_int_no_LF d)) as Hd.
  set (digits := rstrip_zeros (str_int d)) in *.
  set (decpt := decpt0 m e + (Z.of_nat (String.length (str_int d)) - n)).
  destruct ((decpt <=? -4) || (16 <? decpt))%bool;
    [ | destruct (decpt <=? 0);
        [ | destruct (Z.of_nat (String.length digits) <=? decpt)]];
    rewrite ?contains_append, ?substring_no_LF, ?zeros_no_LF,
      ?exp_str_no_LF, ?Hd by exact Hd;
    try reflexivity.
  destruct (1 <? String.length digits)%nat;
    rewrite ?contains_append, ?substring_no_LF by exact Hd; reflexivity.
Qed.

Lemma float_repr_no_LF f : contains LF (float_repr f) = false.
Proof.
  destruct f as [[] | [] | | [] m e]; try reflexivity;
    cbn [float_repr]; rewrite ?contains_append, repr_finite_no_LF;
    reflexivity.
Qed.

(** ** The lines of the stored entries *)

(** the lines of a section are lines of the text that has the section
    after a header *)
Lemma has_line_section (h : string) line (items : dict key fields)
      name data body :
  (forall n d, exists b, line n d = b ++ nl) ->
  In (name, data) items ->
  line name data = body ++ nl ->
  contains LF body = false ->
  has_line ((h ++ nl) ++ section_of line items) body.
Proof.
  intros Hline Hin Hbody Hno.
  assert (Hsplit : exists a post,
            (h ++ nl) ++ section_of line items =
            a ++ String LF (body ++ String LF post)).
  { revert h; induction items as [ | [n d] items IH]; intros h;
      [contradiction | ].
    cbn [section_of]; destruct Hin as [[= -> ->] | Hin].
    - exists h, (section_of line items).
      rewrite Hbody; unfold nl; rewrite !append_assoc; reflexivity.
    - destruct (Hline n d) as (b & Hb).
      destruct (IH Hin (h ++ nl ++ b)) as (a & post & Ha).
      exists a, post; rewrite <- Ha, Hb, !append_assoc; reflexivity. }
  destruct Hsplit as (a & post & ->); apply has_line_intro; exact Hno.
Qed.

Lemma style_line_ends n d : exists b, style_line n d = b ++ nl.
Proof. eexists; unfold style_line; rewrite <- !append_assoc; reflexivity. Qed.

Lemma event_line_ends n d : exists b, event_line n d = b ++ nl.
Proof. eexists; unfold event_line; rewrite <- !append_assoc; reflexivity. Qed.

Lemma margin_value_no_LF m : contains LF (str (margin_value m)) = false.
Proof.
  destruct m; cbn [margin_value str];
    [apply float_repr_no_LF | apply str_int_no_LF].
Qed.

(** X19: every style that the parse stores is written as a line of the
    file, the Style line of the specified format, provided that the id and
    the two colours have no line feed in them. *)
Theorem stored_style_is_written tree parsed stdout name data :
  _parse_xml (new tree) = (Ok parsed, stdout) ->
  In (name, data) (styles parsed) ->
  contains LF (str (of_attr name)) = false ->
  contains LF (field data "PrimaryColour") = false ->
  contains LF (field data "BackColour") = false ->
  exists self body,
    __init__ tree = (Ok self, stdout) /\
    style_line name data = body ++ nl /\
    has_line (save self) body.
Proof.
  intros Hp Hin Hname Hfg Hbg.
  pose proof (init_parsed _ _ _ Hp) as Hi.
  destruct (parse_xml_inv _ _ _ Hp) as (annotations & _ & Hafter & _).
  destruct (after_consistent (new tree) (findall annotations "annotation")
              (new_consistent tree)) as (_ & _ & _ & Hs).
  rewrite <- Hafter in Hs.
  rewrite Forall_forall in Hs; specialize (Hs _ Hin); cbn [snd] in Hs.
  destruct Hs as (fg & bg & [align [[MarginL MarginR] MarginV]] & ->).
  eexists; eexists; split; [exact Hi | ].
  split.
  - unfold style_line; rewrite <- !append_assoc; reflexivity.
  - apply has_line_save; left; cbn [V4_Styles].
    change V4_Styles_header
      with (("[V4 Styles]" ++ nl ++
             "Format: Name, Fontname, Fontsize, PrimaryColour, " ++
             "SecondaryColour, TertiaryColour, BackColour, Bold, Italic, " ++
             "BorderStyle, Outline, Shadow, Alignment, MarginL, MarginR, " ++
             "MarginV, AlphaLevel, Encoding") ++ nl).
    eapply (has_line_section _ style_line); [apply style_line_ends | exact Hin | | ].
    + unfold style_line; rewrite <- !append_assoc; reflexivity.
    + change (field (style_of fg bg (align, (MarginL, MarginR, MarginV)))
                "PrimaryColour") with (str fg) in *.
      change (field (style_of fg bg (align, (MarginL, MarginR, MarginV)))
                "BackColour") with (str bg) in *.
      change (field (style_of fg bg (align, (MarginL, MarginR, MarginV)))
                "Alignment") with (str_int align).
      change (field (style_of fg bg (align, (MarginL, MarginR, MarginV)))
                "MarginL") with (float_repr MarginL).
      change (field (style_of fg bg (align, (MarginL, MarginR, MarginV)))
                "MarginR") with (float_repr MarginR).
      change (field (style_of fg bg (align, (MarginL, MarginR, MarginV)))
                "MarginV") with (str (margin_value MarginV)).
      rewrite !contains_append, Hname, Hfg, Hbg, str_int_no_LF,
        !float_repr_no_LF, margin_value_no_LF.
      reflexivity.
Qed.

Lemma stored_style_is_written_witness :
  exists parsed stdout data,
    _parse_xml (new (sample_document sample_order)) = (Ok parsed, stdout) /\
    In (Some "a2", data) (styles parsed) /\
    exists self body,
      __init__ (sample_document sample_order) = (Ok self, stdout) /\
      style_line (Some "a2") data = body ++ nl /\
      has_line (save self) body.
Proof.
  eexists; eexists; eexists.
  assert (Hp : _parse_xml (new (sample_document sample_order)) =
               (Ok (after (new (sample_document sample_order)) sample_order),
                [])) by (vm_compute; reflexivity).
  assert (Hin : In (Some "a2",
                    style_of (VStr "1") (VStr "0")
                      (_get_pos 100 100 f0 f0 f20 f10))
                  (styles (after (new (sample_document sample_order))
                             sample_order)))
    by (vm_compute; right; left; reflexivity).
  split; [exact Hp | split; [exact Hin | ]].
  exact (stored_style_is_written _ _ _ _ _ Hp Hin eq_refl eq_refl eq_refl).
Defined.

(** X20: every event that the parse stores is written as a line of the
    file, the Dialogue line of the specified format, provided that the id
    and the two times have no line feed in them. *)
Theorem stored_event_is_written tree parsed stdout name data :
  _parse_xml (new tree) = (Ok parsed, stdout) ->
  In (name, data) (events parsed) ->
  contains LF (str (of_attr name)) = false ->
  contains LF (field data "Start") = false ->
  contains LF (field data "End") = false ->
  exists self body,
    __init__ tree = (Ok self, stdout) /\
    event_line name data = body ++ nl /\
    has_line (save self) body.
Proof.
  intros Hp Hin Hname Ht1 Ht2.
  pose proof (init_parsed _ _ _ Hp) as Hi.
  destruct (parse_xml_inv _ _ _ Hp) as (annotations & _ & Hafter & _).
  destruct (after_consistent (new tree) (findall annotations "annotation")
              (new_consistent tree)) as (_ & _ & He & _).
  rewrite <- Hafter in He.
  rewrite Forall_forall in He; specialize (He _ Hin); cbn [snd] in He.
  destruct He as (txt & t1 & t2 & ->).
  eexists; eexists; split; [exact Hi | ].
  split.
  - unfold event_line; rewrite <- !append_assoc; reflexivity.
  - apply has_line_save; right; cbn [Events].
    change Events_header
      with (("[Events]" ++ nl ++
             "Format: Marked, Start, End, Style, Name, MarginL, MarginR, " ++
             "MarginV, Effect, Text") ++ nl).
    eapply (has_line_section _ event_line); [apply event_line_ends | exact Hin | | ].
    + unfold event_line; rewrite <- !append_assoc; reflexivity.
    + change (field (event_of txt t1 t2) "Start") with t1 in *.
      change (field (event_of txt t1 t2) "End") with t2 in *.
      change (field (event_of txt t1 t2) "Text") with (bytes_repr txt).
      rewrite !contains_append, Hname, Ht1, Ht2, bytes_repr_no_LF.
      reflexivity.
Qed.

Lemma stored_event_is_written_witness :
  exists parsed stdout data,
    _parse_xml (new (sample_document sample_order)) = (Ok parsed, stdout) /\
    In (Some "a2", data) (events parsed) /\
    exists self body,
      __init__ (sample_document sample_order) = (Ok self, stdout) /\
      event_line (Some "a2") data = body ++ nl /\
      has_line (save self) body.
Proof.
  eexists; eexists; eexists.
  assert (Hp : _parse_xml (new (sample_document sample_order)) =
               (Ok (after (new (sample_document sample_order)) sample_order),
                [])) by (vm_compute; reflexivity).
  assert (Hin : In (Some "a2", event_of "late" "10" "9")
                  (events (after (new (sample_document sample_order))
                             sample_order)))
    by (vm_compute; right; left; reflexivity).
  split; [exact Hp | split; [exact Hin | ]].
  exact (stored_event_is_written _ _ _ _ _ Hp Hin eq_refl eq_refl eq_refl).
Defined.

(** ** Boxes with int coordinates *)

Lemma same_float_eq (a b : float) : same_float a b = true -> a = b.
Proof.
  destruct a as [s | s | | s m e], b as [s' | s' | | s' m' e'];
    cbn; try discriminate; try reflexivity.
  - intros H; apply Bool.eqb_prop in H; congruence.
  - intros H; apply Bool.eqb_prop in H; congruence.
  - rewrite !andb_true_iff; intros [[Hs Hm] He].
    apply Bool.eqb_prop in Hs; apply Pos.eqb_eq in Hm; apply Z.eqb_eq in He.
    congruence.
Qed.

Lemma In_percents (a : Z) : 0 <= a <= 100 -> In a percents.
Proof.
  intros Ha; unfold percents; apply in_map_iff.
  exists (Z.to_nat a); split; [lia | apply in_seq; lia].
Qed.

Lemma exact_on_percents :
  forallb (fun a => forallb (exact_on a) percents) percents = true.
Proof. vm_compute; reflexivity. Qed.

Lemma exact_on_range (a b : Z) :
  0 <= a <= 100 -> 0 <= b <= 100 ->
  float_sub (float_sub (float_of_int 100) (float_of_int a)) (float_of_int b)
    = float_of_int (100 - a - b) /\
  float_lt_int (float_of_int a) 50 = (a <? 50) /\
  float_gt_int (float_of_int a) 50 = (a >? 50).
Proof.
  intros Ha Hb.
  pose proof exact_on_percents as Hall.
  rewrite forallb_forall in Hall; specialize (Hall a (In_percents a Ha)).
  rewrite forallb_forall in Hall; specialize (Hall b (In_percents b Hb)).
  unfold exact_on in Hall; rewrite !andb_true_iff in Hall.
  destruct Hall as [[Hs Hl] Hg].
  split; [apply same_float_eq; exact Hs | ].
  split; apply Bool.eqb_prop; assumption.
Qed.

(** X21: on the 100x100 canvas, for a box whose four numbers are ints from
    0 to 100, the floats lose nothing: the placement computed on the floats
    is the placement computed on the ints, number by number. *)
Theorem get_pos_float_exact_on_ints (x y w h : Z) :
  0 <= x <= 100 -> 0 <= y <= 100 -> 0 <= w <= 100 -> 0 <= h <= 100 ->
  _get_pos 100 100 (float_of_int x) (float_of_int y) (float_of_int w)
    (float_of_int h) =
  float_of_placement (_get_pos 100 100 x y w h).
Proof.
  intros Hx Hy Hw Hh.
  destruct (exact_on_range x w Hx Hw) as (Hxw & Hxl & Hxg).
  destruct (exact_on_range y h Hy Hh) as (Hyh & Hyl & Hyg).
  unfold _get_pos;
    cbn [lt_int gt_int Number_float Number_Z sub rsub_int].
  change (100 / 2) with 50.
  rewrite Hxw, Hyh, Hxl, Hxg, Hyl, Hyg.
  destruct (y <? 50), (y >? 50), (x <? 50), (x >? 50); reflexivity.
Qed.

Lemma get_pos_float_exact_on_ints_witness :
  0 <= 90 <= 100 /\ 0 <= 10 <= 100 /\
  _get_pos 100 100 (float_of_int 90) (float_of_int 90) (float_of_int 10)
    (float_of_int 10) =
  float_of_placement (_get_pos 100 100 90 90 10 10).
Proof.
  assert (H90 : 0 <= 90 <= 100) by lia.
  assert (H10 : 0 <= 10 <= 100) by lia.
  split; [exact H90 | split; [exact H10 | ]].
  exact (get_pos_float_exact_on_ints 90 90 10 10 H90 H90 H10 H10).
Defined.
